(** * CollectPoints: the point-collection engine of SlicerIGT

    A shallow embedding of [vtkMRMLCollectPointsNode] (the parameter node
    holding a collection session) and of [vtkSlicerCollectPointsLogic]
    (the controller), both from
    [CollectPoints/MRML/vtkMRMLCollectPointsNode.cxx], followed by the
    properties of the engine.

    Conventions of the embedding.
    - A C++ [double] is a binary64 floating-point number of [float], with
      the rounding of each operation, the infinities and NaN; [+], [-],
      [*], [sqrt] and [<] are those of IEEE 754.
    - An [int] is an integer of [Z]; where the source computes on an
      [int] that can leave the 32-bit range, the wrap-around is written
      out ([int_wrap]).  The fields of the parameter node and their
      set-macros are declared in its header, which is not among the
      sources.
    - A [const char*] is an [option string], [None] being the null pointer.
    - A pointer to a scene node is the node's ID; the scene maps IDs to
      nodes, and a lookup that finds nothing is the null pointer.
    - A [void] member function is a function from world to world; what
      [vtkErrorMacro] and [vtkWarningMacro] print is appended to the
      world's message list, and the events the parameter node invokes
      (through [InvokeCustomModifiedEvent] and [Modified()]) to its event
      list.  An early [return] is the end of a branch.
    - [WriteXML], [PrintSelf], [Copy] and the registration of observers
      are not modelled. *)

From Stdlib Require Import ZArith QArith Floats DecimalString DecimalZ.
From stdpp Require Import gmap strings list.

Open Scope Z_scope.

(** ** Collaborators: points, matrices, scene nodes *)

Abbreviation Point3 := (float * float * float)%type.

(** [vtkMatrix4x4], read through [GetElement( i, j )]. *)
Definition vtkMatrix4x4 : Type := Z → Z → float.

Definition GetElement (m : vtkMatrix4x4) (i j : Z) : float := m i j.

(** [vtkMath::Distance2BetweenPoints], in [double] arithmetic: every
    difference, product and sum is rounded. *)
Definition Distance2BetweenPoints (p q : Point3) : float :=
  match p, q with
  | (p0, p1, p2), (q0, q1, q2) =>
      ((p0 - q0) * (p0 - q0) + (p1 - q1) * (p1 - q1)
       + (p2 - q2) * (p2 - q2))%float
  end.

(** One entry of a [vtkMRMLMarkupsFiducialNode]. *)
Record Fiducial := mkFiducial {
  fiducialLabel : string;
  fiducialPosition : Point3
}.

(** A [vtkCellArray]: the cells in insertion order, each one the list of
    its point ids. *)
Abbreviation vtkCellArray := (list (list Z)).

(** A [vtkPolyData]: the coordinate array and its four cell arrays
    (vertices, lines, polygons, triangle strips), each a pointer that may
    be null.  The source writes the first three cell arrays and never the
    strips. *)
Record vtkPolyData := mkPolyData {
  Points : option (list Point3);
  Verts : option vtkCellArray;
  Lines : option vtkCellArray;
  Polys : option vtkCellArray;
  Strips : option vtkCellArray
}.

(** [vtkSmartPointer< vtkPolyData >::New()]. *)
Definition vtkPolyData_New : vtkPolyData :=
  {| Points := None; Verts := None; Lines := None; Polys := None;
     Strips := None |}.

(** The kinds of scene node that the [SafeDownCast]s of the source tell
    apart. *)
Inductive vtkMRMLNode :=
| LinearTransformNode
| MarkupsFiducialNode (fiducials : list Fiducial)
| ModelNode (polyData : option vtkPolyData)
| OtherNode.

(** The frame provider: [GetMatrixTransformToWorld] of a transform node
    and [GetMatrixTransformToNode] of a pair, at the time of the call. *)
Record FrameProvider := mkFrameProvider {
  GetMatrixTransformToWorld : string → vtkMatrix4x4;
  GetMatrixTransformToNode : string → string → vtkMatrix4x4
}.

(** ** The parameter node and the world *)

Definition SAMPLING_TRANSFORM_REFERENCE_ROLE : string := "ProbeTransformNode".
Definition ANCHOR_TRANSFORM_REFERENCE_ROLE : string := "AnchorTransformNode".
Definition OUTPUT_REFERENCE_ROLE : string := "OutputNode".

(** The collect modes: the enumerators [Manual] and [Automatic] of the
    header, in the order [GetCollectModeAsString] lists them.  The field
    [CollectMode] is an [int]. *)
Definition Manual : Z := 0.
Definition Automatic : Z := 1.

(** The two events the controller observes on a parameter node. *)
Inductive Event := ModifiedEvent | InputDataModifiedEvent.

Inductive Message :=
| ErrorMessage (text : string)
| WarningMessage (text : string).

Record CollectPointsNode := mkCollectPointsNode {
  LabelBase : string;
  LabelCounter : Z;
  MinimumDistanceMm : float;
  CollectMode : Z;
  NodeReferenceIDs : gmap string string
}.

Record World := mkWorld {
  node : CollectPointsNode;
  scene : gmap string vtkMRMLNode;
  messages : list Message;
  invoked : list Event
}.

(** The constructor [vtkMRMLCollectPointsNode()]. *)
Definition vtkMRMLCollectPointsNode_New : CollectPointsNode :=
  {| LabelBase := "P";
     LabelCounter := 0;
     MinimumDistanceMm := 10;
     CollectMode := Manual;
     NodeReferenceIDs := ∅ |}.

Definition vtkErrorMacro (text : string) (w : World) : World :=
  {| node := node w; scene := scene w;
     messages := messages w ++ [ErrorMessage text];
     invoked := invoked w |}.

Definition vtkWarningMacro (text : string) (w : World) : World :=
  {| node := node w; scene := scene w;
     messages := messages w ++ [WarningMessage text];
     invoked := invoked w |}.

Definition InvokeCustomModifiedEvent (e : Event) (w : World) : World :=
  {| node := node w; scene := scene w;
     messages := messages w;
     invoked := invoked w ++ [e] |}.

Definition set_node (n : CollectPointsNode) (w : World) : World :=
  {| node := n; scene := scene w;
     messages := messages w; invoked := invoked w |}.

Definition set_scene (s : gmap string vtkMRMLNode) (w : World) : World :=
  {| node := node w; scene := s;
     messages := messages w; invoked := invoked w |}.

(** [Modified()] of the node invokes [ModifiedEvent]. *)
Definition Modified (w : World) : World :=
  InvokeCustomModifiedEvent ModifiedEvent w.

(** ** The machine integers *)

Definition INT_MIN : Z := -2147483648.
Definition INT_MAX : Z := 2147483647.

(** The value an [int] holds after a computation whose mathematical
    result is [z]: [z] itself inside the 32-bit range, and wrapped around
    modulo 2^32 outside it. *)
Definition int_wrap (z : Z) : Z :=
  (z - INT_MIN) mod 4294967296 + INT_MIN.

(** [const char* std::string::c_str()] read back as a C string: the
    characters before the first NUL. *)
Fixpoint c_str (s : string) : string :=
  match s with
  | EmptyString => EmptyString
  | String c s' =>
      if bool_decide (c = Ascii.zero) then EmptyString
      else String c (c_str s')
  end.

(** [nodeID != NULL && currentNodeID != NULL
     && strcmp( nodeID, currentNodeID ) == 0]. *)
Definition same_node_id (nodeID currentNodeID : option string) : bool :=
  match nodeID, currentNodeID with
  | Some a, Some b => bool_decide (a = b)
  | _, _ => false
  end.

(** ** The collaborating classes, as far as the source calls them *)

Module Markups.

Definition GetNumberOfFiducials (fids : list Fiducial) : Z :=
  Z.of_nat (length fids).

Definition GetNthFiducialPosition (n : Z) (fids : list Fiducial) : Point3 :=
  match fids !! Z.to_nat n with
  | Some f => fiducialPosition f
  | None => (0, 0, 0)%float
  end.

(** Appends a fiducial and returns its index; the label it gets here is
    overwritten by the caller before anything reads it. *)
Definition AddFiducialFromArray (pos : Point3) (fids : list Fiducial)
  : list Fiducial * Z :=
  (fids ++ [mkFiducial "" pos], Z.of_nat (length fids)).

Definition SetNthFiducialLabel (n : Z) (label : string)
    (fids : list Fiducial) : list Fiducial :=
  alter (λ f, mkFiducial label (fiducialPosition f)) (Z.to_nat n) fids.

Definition RemoveMarkup (n : Z) (fids : list Fiducial) : list Fiducial :=
  delete (Z.to_nat n) fids.

Definition RemoveAllMarkups (fids : list Fiducial) : list Fiducial := [].

End Markups.

Module PointArray.

Definition GetNumberOfPoints (pts : list Point3) : Z :=
  Z.of_nat (length pts).

Definition GetPoint (n : Z) (pts : list Point3) : Point3 :=
  match pts !! Z.to_nat n with
  | Some p => p
  | None => (0, 0, 0)%float
  end.

Definition InsertNextPoint (p : Point3) (pts : list Point3) : list Point3 :=
  pts ++ [p].

(** [SetNumberOfPoints] on a new array: that many slots. *)
Definition SetNumberOfPoints (n : Z) : list Point3 :=
  replicate (Z.to_nat n) (0, 0, 0)%float.

Definition SetPoint (n : Z) (p : Point3) (pts : list Point3) : list Point3 :=
  <[Z.to_nat n := p]> pts.

End PointArray.

(** [vtkPolyData::GetNumberOfPoints]: 0 without a coordinate array. *)
Definition PolyData_GetNumberOfPoints (pd : vtkPolyData) : Z :=
  match Points pd with
  | Some pts => PointArray.GetNumberOfPoints pts
  | None => 0
  end.

Definition PolyData_SetPoints (pts : list Point3) (pd : vtkPolyData)
  : vtkPolyData :=
  {| Points := Some pts; Verts := Verts pd;
     Lines := Lines pd; Polys := Polys pd; Strips := Strips pd |}.

(** The number of cells of a cell array that may be null. *)
Definition GetNumberOfCellsIn (cells : option vtkCellArray) : Z :=
  match cells with
  | Some cs => Z.of_nat (length cs)
  | None => 0
  end.

(** [vtkPolyData::GetNumberOfCells]: the cells of the four cell
    arrays. *)
Definition PolyData_GetNumberOfCells (pd : vtkPolyData) : Z :=
  GetNumberOfCellsIn (Verts pd) + GetNumberOfCellsIn (Lines pd)
  + GetNumberOfCellsIn (Polys pd) + GetNumberOfCellsIn (Strips pd).

(** [operator<<] of an [int] into a [std::stringstream]. *)
Definition stream_int (n : Z) : string :=
  NilZero.string_of_int (Z.to_int n).

(** ** vtkMRMLCollectPointsNode *)

Definition GetNodeReferenceID (role : string) (w : World) : option string :=
  NodeReferenceIDs (node w) !! role.

(** The referenced node, when the scene has a node of that ID. *)
Definition GetNodeReference (role : string) (w : World) : option string :=
  match GetNodeReferenceID role w with
  | Some id => match scene w !! id with
               | Some _ => Some id
               | None => None
               end
  | None => None
  end.

Definition SetAndObserveNodeReferenceID (role : string)
    (nodeID : option string) (w : World) : World :=
  let n := node w in
  set_node
    {| LabelBase := LabelBase n;
       LabelCounter := LabelCounter n;
       MinimumDistanceMm := MinimumDistanceMm n;
       CollectMode := CollectMode n;
       NodeReferenceIDs :=
         match nodeID with
         | Some id => <[role := id]> (NodeReferenceIDs n)
         | None => delete role (NodeReferenceIDs n)
         end |} w.

(** [vtkMRMLLinearTransformNode::SafeDownCast]. *)
Definition SafeDownCast_LinearTransformNode (p : option string) (w : World)
  : option string :=
  match p with
  | Some id => match scene w !! id with
               | Some LinearTransformNode => Some id
               | _ => None
               end
  | None => None
  end.

Definition GetSamplingTransformNode (w : World) : option string :=
  SafeDownCast_LinearTransformNode
    (GetNodeReference SAMPLING_TRANSFORM_REFERENCE_ROLE w) w.

Definition SetAndObserveSamplingTransformNodeID (nodeID : option string)
    (w : World) : World :=
  let currentNodeID := GetNodeReferenceID SAMPLING_TRANSFORM_REFERENCE_ROLE w in
  if same_node_id nodeID currentNodeID then w
  else
    let currentAnchorNodeID :=
      GetNodeReferenceID ANCHOR_TRANSFORM_REFERENCE_ROLE w in
    if same_node_id nodeID currentAnchorNodeID then
      vtkErrorMacro "Anchor and sampling transforms cannot be the same." w
    else
      InvokeCustomModifiedEvent InputDataModifiedEvent
        (SetAndObserveNodeReferenceID SAMPLING_TRANSFORM_REFERENCE_ROLE
           nodeID w).

Definition GetAnchorTransformNode (w : World) : option string :=
  SafeDownCast_LinearTransformNode
    (GetNodeReference ANCHOR_TRANSFORM_REFERENCE_ROLE w) w.

Definition SetAndObserveAnchorTransformNodeID (nodeID : option string)
    (w : World) : World :=
  let currentAnchorNodeID :=
    GetNodeReferenceID ANCHOR_TRANSFORM_REFERENCE_ROLE w in
  if same_node_id nodeID currentAnchorNodeID then w
  else
    let currentSamplingNodeID :=
      GetNodeReferenceID SAMPLING_TRANSFORM_REFERENCE_ROLE w in
    if same_node_id nodeID currentSamplingNodeID then
      vtkErrorMacro "Anchor and sampling transforms cannot be the same." w
    else
      SetAndObserveNodeReferenceID ANCHOR_TRANSFORM_REFERENCE_ROLE nodeID w.

Definition GetOutputNode (w : World) : option string :=
  GetNodeReference OUTPUT_REFERENCE_ROLE w.

Definition GetNumberOfPointsInOutput (w : World) : Z * World :=
  match GetOutputNode w with
  | None => (0, w)
  | Some outputNode =>
      match scene w !! outputNode with
      | Some (MarkupsFiducialNode fids) =>
          (Markups.GetNumberOfFiducials fids, w)
      | Some (ModelNode outputPolyData) =>
          match outputPolyData with
          | None => (0, w)
          | Some pd => (PolyData_GetNumberOfPoints pd, w)
          end
      | _ =>
          (0, vtkErrorMacro "Unsupported node type in output. Returning 0." w)
      end
  end.

Definition SetOutputNodeID (nodeID : option string) (w : World) : World :=
  let currentNodeID := GetNodeReferenceID OUTPUT_REFERENCE_ROLE w in
  if same_node_id nodeID currentNodeID then w
  else SetAndObserveNodeReferenceID OUTPUT_REFERENCE_ROLE nodeID w.

Definition GetCollectMode (w : World) : Z := CollectMode (node w).

(** The setters of [CollectMode] and [LabelCounter] are the set-macros
    of the header: when the value differs from the field, they assign it
    and call [Modified()]; otherwise they do nothing. *)
Definition SetCollectMode (mode : Z) (w : World) : World :=
  let n := node w in
  if bool_decide (CollectMode n = mode) then w
  else
    Modified
      (set_node
         {| LabelBase := LabelBase n;
            LabelCounter := LabelCounter n;
            MinimumDistanceMm := MinimumDistanceMm n;
            CollectMode := mode;
            NodeReferenceIDs := NodeReferenceIDs n |} w).

Definition SetCollectModeToManual (w : World) : World :=
  SetCollectMode Manual w.

Definition SetLabelCounter (counter : Z) (w : World) : World :=
  let n := node w in
  if bool_decide (LabelCounter n = counter) then w
  else
    Modified
      (set_node
         {| LabelBase := LabelBase n;
            LabelCounter := counter;
            MinimumDistanceMm := MinimumDistanceMm n;
            CollectMode := CollectMode n;
            NodeReferenceIDs := NodeReferenceIDs n |} w).

(** [GetProbeTransformNode], deprecated: warns, then asks
    [GetSamplingTransformNode]. *)
Definition GetProbeTransformNode (w : World) : option string * World :=
  let w1 :=
    vtkWarningMacro
      "GetProbeTransformNode is deprecated. Use GetSamplingTransformNode instead."
      w in
  (GetSamplingTransformNode w1, w1).

(** [SetAndObserveProbeTransformNodeID], deprecated: warns, then calls
    [SetAndObserveProbeTransformNodeID] again.  The recursion of the
    source is not structural, so the model counts calls: [fuel] bounds the
    number of nested calls, and [None] says the bound was reached before
    any call returned. *)
Fixpoint SetAndObserveProbeTransformNodeID (fuel : nat)
    (nodeID : option string) (w : World) : option World :=
  match fuel with
  | O => None
  | S fuel' =>
      let w1 :=
        vtkWarningMacro
          "SetAndObserveProbeTransformNodeID is deprecated. Use SetAndObserveSamplingTransformNodeID instead."
          w in
      SetAndObserveProbeTransformNodeID fuel' nodeID w1
  end.

(** ** vtkSlicerCollectPointsLogic *)

(** The [vtkMRMLCollectPointsNode*] argument of the controller's entry
    points: null, or the session of the world. *)
Inductive ParameterNodePointer := NullParameterNode | ParameterNode.

Definition ComputeMinimumDistanceFromPreviousPointMm (w : World) : float :=
  if bool_decide (GetCollectMode w = Automatic)
  then MinimumDistanceMm (node w)
  else 0%float.

(** Returns the output coordinates and [success]; the coordinates passed
    in come back untouched when nothing is computed. *)
Definition ComputePointCoordinates (collectPointsNode : ParameterNodePointer)
    (frames : FrameProvider) (outputPointCoordinates : Point3) (w : World)
  : Point3 * bool * World :=
  match collectPointsNode with
  | NullParameterNode =>
      (outputPointCoordinates, false,
       vtkErrorMacro
         "No parameter node set. Cannot compute point coordinates." w)
  | ParameterNode =>
      match GetSamplingTransformNode w with
      | None =>
          (outputPointCoordinates, false,
           vtkErrorMacro
             "No sampling transform node set. Cannot compute point coordinates."
             w)
      | Some samplingNode =>
          match GetAnchorTransformNode w with
          | None =>
              let samplingToWorld :=
                GetMatrixTransformToWorld frames samplingNode in
              ((GetElement samplingToWorld 0 3,
                GetElement samplingToWorld 1 3,
                GetElement samplingToWorld 2 3), true, w)
          | Some anchorNode =>
              let samplingToAnchor :=
                GetMatrixTransformToNode frames samplingNode anchorNode in
              ((GetElement samplingToAnchor 0 3,
                GetElement samplingToAnchor 1 3,
                GetElement samplingToAnchor 2 3), true, w)
          end
      end
  end.

(** The loop of [UpdateCellsForPolyData]: [InsertNextCell( 1 )] and
    [InsertCellPoint( ptId )] for [count] more point ids from [ptId]. *)
Fixpoint InsertVertexCells (count : nat) (ptId : Z) (cells : vtkCellArray)
  : vtkCellArray :=
  match count with
  | O => cells
  | S count' => InsertVertexCells count' (ptId + 1) (cells ++ [[ptId]])
  end.

(** Both callers pass a poly data that is not null, so the null guard of
    the source is not part of the model. *)
Definition UpdateCellsForPolyData (polyData : vtkPolyData) : vtkPolyData :=
  let numberOfPoints := PolyData_GetNumberOfPoints polyData in
  let verticesCellArray :=
    InsertVertexCells (Z.to_nat numberOfPoints) 0 [] in
  {| Points := Points polyData;
     Verts := Some verticesCellArray;
     Lines := None;
     Polys := None;
     Strips := Strips polyData |}.

(** Writes the poly data of the model node [modelNode] back to the scene:
    the source mutates it in place. *)
Definition store_poly_data (modelNode : string) (polyData : vtkPolyData)
    (w : World) : World :=
  set_scene (<[modelNode := ModelNode (Some polyData)]> (scene w)) w.

Definition store_fiducials (markupsNode : string) (fids : list Fiducial)
    (w : World) : World :=
  set_scene (<[markupsNode := MarkupsFiducialNode fids]> (scene w)) w.

(** [vtkMRMLModelNode::SafeDownCast] and
    [vtkMRMLMarkupsFiducialNode::SafeDownCast] of a node pointer. *)
Definition SafeDownCast_ModelNode (p : option string) (w : World)
  : option (string * option vtkPolyData) :=
  match p with
  | Some id => match scene w !! id with
               | Some (ModelNode pd) => Some (id, pd)
               | _ => None
               end
  | None => None
  end.

Definition SafeDownCast_MarkupsFiducialNode (p : option string) (w : World)
  : option (string * list Fiducial) :=
  match p with
  | Some id => match scene w !! id with
               | Some (MarkupsFiducialNode fids) => Some (id, fids)
               | _ => None
               end
  | None => None
  end.

Definition AddPointToModel (pointCoordinates : Point3) (w : World) : World :=
  match SafeDownCast_ModelNode (GetOutputNode w) w with
  | None => vtkErrorMacro "Output node is null. No points added." w
  | Some (modelNode, polyData0) =>
      let polyData :=
        match polyData0 with
        | Some pd => pd
        | None => vtkPolyData_New
        end in
      let points :=
        match Points polyData with
        | Some pts => pts
        | None => []
        end in
      let numberOfPoints := PointArray.GetNumberOfPoints points in
      let minimumDistanceFromPreviousPointMm :=
        ComputeMinimumDistanceFromPreviousPointMm w in
      let tooClose :=
        if PrimFloat.ltb 0 minimumDistanceFromPreviousPointMm
           && bool_decide (numberOfPoints > 0)
        then
          let previousCoordinates :=
            PointArray.GetPoint (numberOfPoints - 1) points in
          let distanceMm :=
            PrimFloat.sqrt
              (Distance2BetweenPoints pointCoordinates previousCoordinates) in
          PrimFloat.ltb distanceMm minimumDistanceFromPreviousPointMm
        else false in
      if tooClose
      then store_poly_data modelNode (PolyData_SetPoints points polyData) w
      else
        store_poly_data modelNode
          (UpdateCellsForPolyData
             (PolyData_SetPoints
                (PointArray.InsertNextPoint pointCoordinates points)
                polyData)) w
  end.

(** The copy loop of [RemoveLastPointFromModel]: [count] more points from
    index [ptId]. *)
Fixpoint CopyPoints (count : nat) (ptId : Z) (oldPoints newPoints : list Point3)
  : list Point3 :=
  match count with
  | O => newPoints
  | S count' =>
      CopyPoints count' (ptId + 1) oldPoints
        (PointArray.SetPoint ptId (PointArray.GetPoint ptId oldPoints)
           newPoints)
  end.

Definition RemoveLastPointFromModel
    (modelNode : option (string * option vtkPolyData)) (w : World) : World :=
  match modelNode with
  | None => vtkErrorMacro "Output node is null. No points removed." w
  | Some (modelNode, polyData0) =>
      let polyData :=
        match polyData0 with
        | Some pd => pd
        | None => vtkPolyData_New
        end in
      let nothingToDo :=
        match Points polyData with
        | None => true
        | Some oldPoints =>
            bool_decide (PointArray.GetNumberOfPoints oldPoints = 0)
        end in
      if nothingToDo
      then store_poly_data modelNode (PolyData_SetPoints [] polyData) w
      else
        let oldPoints :=
          match Points polyData with
          | Some pts => pts
          | None => []
          end in
        let numberOfPointsToRetain :=
          PointArray.GetNumberOfPoints oldPoints - 1 in
        let newPoints :=
          CopyPoints (Z.to_nat numberOfPointsToRetain) 0 oldPoints
            (PointArray.SetNumberOfPoints numberOfPointsToRetain) in
        store_poly_data modelNode
          (UpdateCellsForPolyData (PolyData_SetPoints newPoints polyData)) w
  end.

Definition AddPointToMarkups (pointCoordinates : Point3) (w : World) : World :=
  match SafeDownCast_MarkupsFiducialNode (GetOutputNode w) w with
  | None => vtkErrorMacro "Output node is null. No points added." w
  | Some (markupsNode, fids) =>
      let numberOfPoints := Markups.GetNumberOfFiducials fids in
      let minimumDistanceFromPreviousPointMm :=
        ComputeMinimumDistanceFromPreviousPointMm w in
      let tooClose :=
        if PrimFloat.ltb 0 minimumDistanceFromPreviousPointMm
           && bool_decide (numberOfPoints > 0)
        then
          let previousCoordinates :=
            Markups.GetNthFiducialPosition (numberOfPoints - 1) fids in
          let distanceMm :=
            PrimFloat.sqrt
              (Distance2BetweenPoints pointCoordinates previousCoordinates) in
          PrimFloat.ltb distanceMm minimumDistanceFromPreviousPointMm
        else false in
      if tooClose then w
      else
        let markupLabel :=
          String.append (LabelBase (node w))
            (stream_int (LabelCounter (node w))) in
        let '(fids1, pointIndexInMarkups) :=
          Markups.AddFiducialFromArray pointCoordinates fids in
        let fids2 :=
          Markups.SetNthFiducialLabel pointIndexInMarkups (c_str markupLabel)
            fids1 in
        SetLabelCounter (int_wrap (LabelCounter (node w) + 1))
          (store_fiducials markupsNode fids2 w)
  end.

Definition AddPoint (collectPointsNode : ParameterNodePointer)
    (frames : FrameProvider) (w : World) : World :=
  match collectPointsNode with
  | NullParameterNode =>
      vtkErrorMacro "No parameter node set. Will not add any points." w
  | ParameterNode =>
      match GetSamplingTransformNode w with
      | None =>
          vtkErrorMacro
            "No sampling transform node set. Will not add any points." w
      | Some _ =>
          match GetOutputNode w with
          | None =>
              vtkErrorMacro "No output node set. Will not add any points." w
          | Some outputNode =>
              let '(pointCoordinates, success, w1) :=
                ComputePointCoordinates collectPointsNode frames
                  (0, 0, 0)%float w in
              if negb success
              then
                vtkErrorMacro
                  "Could not compute point coordinates. Will not add any points."
                  w1
              else
                match scene w1 !! outputNode with
                | Some (MarkupsFiducialNode _) =>
                    AddPointToMarkups pointCoordinates w1
                | Some (ModelNode _) =>
                    AddPointToModel pointCoordinates w1
                | _ =>
                    vtkErrorMacro
                      "Could not recognize the type of output node. Will not add any points."
                      w1
                end
          end
      end
  end.

Definition RemoveLastPoint (w : World) : World :=
  match GetOutputNode w with
  | None => vtkErrorMacro "No output node set. Will not remove any points." w
  | Some outputNode =>
      match scene w !! outputNode with
      | Some (MarkupsFiducialNode fids) =>
          let numberOfPoints := Markups.GetNumberOfFiducials fids in
          if bool_decide (numberOfPoints = 0) then w
          else
            let lastPointId := numberOfPoints - 1 in
            store_fiducials outputNode (Markups.RemoveMarkup lastPointId fids) w
      | Some (ModelNode _) =>
          RemoveLastPointFromModel
            (SafeDownCast_ModelNode (Some outputNode) w) w
      | _ =>
          vtkErrorMacro
            "Could not recognize the type of output node. Will not remove any points."
            w
      end
  end.

Definition RemoveAllPoints (w : World) : World :=
  match GetOutputNode w with
  | None => vtkErrorMacro "No output node set. Will not remove any points." w
  | Some outputNode =>
      match scene w !! outputNode with
      | Some (MarkupsFiducialNode fids) =>
          store_fiducials outputNode (Markups.RemoveAllMarkups fids) w
      | Some (ModelNode _) =>
          store_poly_data outputNode vtkPolyData_New w
      | _ =>
          vtkErrorMacro
            "Could not recognize the type of output node. Will not remove any points."
            w
      end
  end.

(** [caller] is the outcome of
    [vtkMRMLCollectPointsNode::SafeDownCast( caller )]. *)
Definition ProcessMRMLNodesEvents (caller : ParameterNodePointer)
    (event : Event) (frames : FrameProvider) (w : World) : World :=
  match caller with
  | NullParameterNode => vtkErrorMacro "No parameter node set. Aborting." w
  | ParameterNode =>
      match event with
      | InputDataModifiedEvent =>
          if bool_decide (GetCollectMode w = Automatic) then
            match GetOutputNode w, GetSamplingTransformNode w with
            | Some _, Some _ => AddPoint caller frames w
            | _, _ =>
                SetCollectModeToManual
                  (vtkWarningMacro
                     "Collect fiducials node is not fully set up. Setting to manual collection."
                     w)
            end
          else w
      | _ => w
      end
  end.

(** ** Observations used to state the properties *)

(** The coordinates stored in the bound sink, in order; [None] when no
    point-set or mesh sink is bound. *)
Definition SinkPoints (w : World) : option (list Point3) :=
  match GetOutputNode w with
  | Some outputNode =>
      match scene w !! outputNode with
      | Some (MarkupsFiducialNode fids) => Some (fiducialPosition <$> fids)
      | Some (ModelNode (Some pd)) => Some (default [] (Points pd))
      | Some (ModelNode None) => Some []
      | _ => None
      end
  | None => None
  end.

(** The fiducials of a bound point-set sink and the geometry of a bound
    mesh sink. *)
Definition SinkFiducials (w : World) : option (list Fiducial) :=
  snd <$> SafeDownCast_MarkupsFiducialNode (GetOutputNode w) w.

Definition SinkPolyData (w : World) : option (option vtkPolyData) :=
  snd <$> SafeDownCast_ModelNode (GetOutputNode w) w.

Definition cells_of (cells : option vtkCellArray) : vtkCellArray :=
  default [] cells.

(** One single-point cell per point index, in index order. *)
Definition vertex_cells (n : nat) : vtkCellArray :=
  (λ i : nat, [Z.of_nat i]) <$> seq 0 n.

Record MeshInvariant (pd : vtkPolyData) : Prop := {
  mesh_cell_count :
    PolyData_GetNumberOfCells pd = PolyData_GetNumberOfPoints pd;
  mesh_vertex_cells :
    cells_of (Verts pd)
    = vertex_cells (Z.to_nat (PolyData_GetNumberOfPoints pd));
  mesh_no_lines : cells_of (Lines pd) = [];
  mesh_no_polys : cells_of (Polys pd) = [];
  mesh_no_strips : cells_of (Strips pd) = []
}.

(** A geometry carries no triangle strips, and no cells at all while it
    has no points. *)
Definition NoStaleCells (pd : vtkPolyData) : Prop :=
  cells_of (Strips pd) = []
  ∧ (PolyData_GetNumberOfPoints pd = 0 →
     cells_of (Verts pd) = [] ∧ cells_of (Lines pd) = []
     ∧ cells_of (Polys pd) = []).

(** The error messages of [AddPoint] that the failure names stand for. *)
Definition NoSamplingFrame : Message :=
  ErrorMessage "No sampling transform node set. Will not add any points.".
Definition NoOutput : Message :=
  ErrorMessage "No output node set. Will not add any points.".

(** [distanceMm] of the two gates: the distance between the candidate and
    the previous point as the source computes it, in [double]
    arithmetic. *)
Definition ComputedDistanceMm (p q : Point3) : float :=
  PrimFloat.sqrt (Distance2BetweenPoints p q).

(** The configuration [n] with another label counter, and with another
    collect mode. *)
Definition with_counter (counter : Z) (n : CollectPointsNode)
  : CollectPointsNode :=
  {| LabelBase := LabelBase n;
     LabelCounter := counter;
     MinimumDistanceMm := MinimumDistanceMm n;
     CollectMode := CollectMode n;
     NodeReferenceIDs := NodeReferenceIDs n |}.

Definition with_mode (mode : Z) (n : CollectPointsNode)
  : CollectPointsNode :=
  {| LabelBase := LabelBase n;
     LabelCounter := LabelCounter n;
     MinimumDistanceMm := MinimumDistanceMm n;
     CollectMode := mode;
     NodeReferenceIDs := NodeReferenceIDs n |}.

(** The candidate [p] has become the last point of the bound sink. *)
Definition Appends (add : Point3 → World → World) (p : Point3) (w : World)
  : Prop :=
  ∃ pts, SinkPoints w = Some pts ∧ SinkPoints (add p w) = Some (pts ++ [p]).


(** ** Sequences of operations *)

(** One mutating operation on the bound mesh sink: an append that the gate
    admits, a removal of the last point, a removal of all points. *)
Inductive mesh_step (w : World) : World → Prop :=
| mesh_Append (p : Point3) :
    Appends AddPointToModel p w → mesh_step w (AddPointToModel p w)
| mesh_RemoveLast : mesh_step w (RemoveLastPoint w)
| mesh_RemoveAll : mesh_step w (RemoveAllPoints w).

(** The bound sink is a mesh whose geometry, if it has one, carries no
    triangle strips, and no cells while it has no points. *)
Definition NoStaleSink (w : World) : Prop :=
  ∃ opd, SinkPolyData w = Some opd ∧ ∀ pd, opd = Some pd → NoStaleCells pd.

Definition MeshSinkInvariant (w : World) : Prop :=
  ∃ pd, SinkPolyData w = Some (Some pd) ∧ MeshInvariant pd.

(** One step in the life of a session: a request to the controller, a
    notification, a rebinding of a reference through the node's setters,
    or a change of the scene from outside (nodes added or removed, a sink
    edited by hand).  What the owner sets directly in the configuration
    (label base, label counter, minimum distance, collect mode, a restore
    from XML) is not a step. *)
Inductive session_step (w : World) : World → Prop :=
| step_AddPoint (collectPointsNode : ParameterNodePointer)
    (frames : FrameProvider) :
    session_step w (AddPoint collectPointsNode frames w)
| step_RemoveLastPoint : session_step w (RemoveLastPoint w)
| step_RemoveAllPoints : session_step w (RemoveAllPoints w)
| step_ProcessMRMLNodesEvents (caller : ParameterNodePointer) (event : Event)
    (frames : FrameProvider) :
    session_step w (ProcessMRMLNodesEvents caller event frames w)
| step_SetAndObserveSamplingTransformNodeID (nodeID : option string) :
    session_step w (SetAndObserveSamplingTransformNodeID nodeID w)
| step_SetAndObserveAnchorTransformNodeID (nodeID : option string) :
    session_step w (SetAndObserveAnchorTransformNodeID nodeID w)
| step_SetOutputNodeID (nodeID : option string) :
    session_step w (SetOutputNodeID nodeID w)
| step_scene (s : gmap string vtkMRMLNode) : session_step w (set_scene s w).

(** A step of a session whose label counter has not reached the largest
    [int]. *)
Definition step_below_max (w w' : World) : Prop :=
  LabelCounter (node w) < INT_MAX ∧ session_step w w'.

(** The sampling and anchor references, when both set, differ. *)
Definition NoFrameConflict (w : World) : Prop :=
  ∀ id, GetNodeReferenceID SAMPLING_TRANSFORM_REFERENCE_ROLE w = Some id →
        GetNodeReferenceID ANCHOR_TRANSFORM_REFERENCE_ROLE w ≠ Some id.

(** The fallback of an automatic trigger on a session that is not fully
    set up. *)
Definition fallback_to_manual (w : World) : World :=
  SetCollectModeToManual
    (vtkWarningMacro
       "Collect fiducials node is not fully set up. Setting to manual collection."
       w).

(** ** Concrete worlds *)

Definition identity_frames : FrameProvider :=
  {| GetMatrixTransformToWorld := λ _ i j,
       if bool_decide (i = j) then 1%float else 0%float;
     GetMatrixTransformToNode := λ _ _ i j,
       if bool_decide (i = j) then 1%float else 0%float |}.

(** The stylus tip at (20, 0, 0) in the world and at (10, 0, 0) in the
    frame of the reference body. *)
Definition stylus_frames : FrameProvider :=
  {| GetMatrixTransformToWorld := λ _ i j,
       if bool_decide (i = j) then 1%float
       else if bool_decide (i = 0 ∧ j = 3) then 20%float else 0%float;
     GetMatrixTransformToNode := λ _ _ i j,
       if bool_decide (i = j) then 1%float
       else if bool_decide (i = 0 ∧ j = 3) then 10%float else 0%float |}.

Definition new_world : World :=
  {| node := vtkMRMLCollectPointsNode_New; scene := ∅;
     messages := []; invoked := [] |}.

Definition session (mode : Z) (refs : gmap string string) : CollectPointsNode :=
  {| LabelBase := "P"; LabelCounter := 1; MinimumDistanceMm := 10;
     CollectMode := mode; NodeReferenceIDs := refs |}.

(** A session sampling the stylus into a point set that holds P0 at the
    origin. *)
Definition markups_world (mode : Z) : World :=
  {| node :=
       session mode
         (<[SAMPLING_TRANSFORM_REFERENCE_ROLE := "Stylus"]>
            (<[OUTPUT_REFERENCE_ROLE := "Fiducials"]> ∅));
     scene :=
       <["Stylus" := LinearTransformNode]>
         (<["Fiducials" :=
              MarkupsFiducialNode [mkFiducial "P0" (0, 0, 0)%float]]> ∅);
     messages := []; invoked := [] |}.

(** A session sampling the stylus, relative to the reference body, into
    a mesh of three points. *)
Definition three_points : list Point3 :=
  [(0, 0, 0)%float; (1, 0, 0)%float; (2, 0, 0)%float].

Definition three_point_mesh : vtkPolyData :=
  {| Points := Some three_points;
     Verts := Some [[0]; [1]; [2]];
     Lines := None; Polys := None; Strips := None |}.

Definition mesh_world (mode : Z) (polyData : option vtkPolyData) : World :=
  {| node :=
       session mode
         (<[SAMPLING_TRANSFORM_REFERENCE_ROLE := "Stylus"]>
            (<[ANCHOR_TRANSFORM_REFERENCE_ROLE := "Reference"]>
               (<[OUTPUT_REFERENCE_ROLE := "Model"]> ∅)));
     scene :=
       <["Stylus" := LinearTransformNode]>
         (<["Reference" := LinearTransformNode]>
            (<["Model" := ModelNode polyData]> ∅));
     messages := []; invoked := [] |}.

(** A geometry without points that still carries a line cell. *)
Definition stale_mesh : vtkPolyData :=
  {| Points := None; Verts := None;
     Lines := Some [[0; 1]]; Polys := None; Strips := None |}.

(** ** The rest of the parameter node: persistence and notifications *)

(** The enumerator that closes the collect modes in the header. *)
Definition CollectMode_Last : Z := 2.

Definition GetCollectModeAsString (id : Z) : string :=
  if bool_decide (id = Manual) then "manual"
  else if bool_decide (id = Automatic) then "automatic"
  else "".

(** The loop of [GetCollectModeFromString]: [count] more ids from [i]. *)
Fixpoint GetCollectModeFromString_loop (count : nat) (i : Z) (name : string)
  : Z :=
  match count with
  | O => -1
  | S count' =>
      if bool_decide (name = GetCollectModeAsString i) then i
      else GetCollectModeFromString_loop count' (i + 1) name
  end.

Definition GetCollectModeFromString (name : option string) : Z :=
  match name with
  | None => -1
  | Some name =>
      GetCollectModeFromString_loop (Z.to_nat CollectMode_Last) 0 name
  end.

(** What [ReadXMLAttributes] gets from outside the class: the superclass
    method, which restores the node references, and the extraction of an
    [int] and of a [double] from a [std::stringstream] holding the
    attribute value, each given the value the field has before. *)
Record XMLCollaborators := mkXMLCollaborators {
  Superclass_ReadXMLAttributes : list (string * string) → World → World;
  extract_int : string → Z → Z;
  extract_double : string → float → float
}.

(** Assignments to the fields of the node. *)
Definition assign_LabelBase (base : string) (w : World) : World :=
  let n := node w in
  set_node
    {| LabelBase := base;
       LabelCounter := LabelCounter n;
       MinimumDistanceMm := MinimumDistanceMm n;
       CollectMode := CollectMode n;
       NodeReferenceIDs := NodeReferenceIDs n |} w.

Definition assign_LabelCounter (counter : Z) (w : World) : World :=
  let n := node w in
  set_node
    {| LabelBase := LabelBase n;
       LabelCounter := counter;
       MinimumDistanceMm := MinimumDistanceMm n;
       CollectMode := CollectMode n;
       NodeReferenceIDs := NodeReferenceIDs n |} w.

Definition assign_MinimumDistanceMm (distance : float) (w : World) : World :=
  let n := node w in
  set_node
    {| LabelBase := LabelBase n;
       LabelCounter := LabelCounter n;
       MinimumDistanceMm := distance;
       CollectMode := CollectMode n;
       NodeReferenceIDs := NodeReferenceIDs n |} w.

Definition assign_CollectMode (mode : Z) (w : World) : World :=
  let n := node w in
  set_node
    {| LabelBase := LabelBase n;
       LabelCounter := LabelCounter n;
       MinimumDistanceMm := MinimumDistanceMm n;
       CollectMode := mode;
       NodeReferenceIDs := NodeReferenceIDs n |} w.

(** One turn of the loop of [ReadXMLAttributes], on the attribute
    [attName] with the value [attValue]. *)
Definition ReadXMLAttribute (x : XMLCollaborators) (attName attValue : string)
    (w : World) : World :=
  if bool_decide (attName = "LabelBase") then assign_LabelBase attValue w
  else if bool_decide (attName = "LabelCounter") then
    assign_LabelCounter (extract_int x attValue (LabelCounter (node w))) w
  else if bool_decide (attName = "MinimumDistanceMm") then
    assign_MinimumDistanceMm
      (extract_double x attValue (MinimumDistanceMm (node w))) w
  else if bool_decide (attName = "CollectMode") then
    let modeAsInt := GetCollectModeFromString (Some attValue) in
    if bool_decide (modeAsInt >= 0) && bool_decide (modeAsInt < CollectMode_Last)
    then assign_CollectMode modeAsInt w
    else
      assign_CollectMode Manual
        (vtkWarningMacro
           (String.append "Unrecognized collect mode read from MRML node: "
              (String.append attValue ". Setting to manual."))
           w)
  else w.

(** The loop over the name and value pairs of [atts]. *)
Fixpoint ReadXMLAttributes_loop (x : XMLCollaborators)
    (atts : list (string * string)) (w : World) : World :=
  match atts with
  | [] => w
  | (attName, attValue) :: atts' =>
      ReadXMLAttributes_loop x atts' (ReadXMLAttribute x attName attValue w)
  end.

(** [Modified()] at the end invokes [ModifiedEvent]. *)
Definition ReadXMLAttributes (x : XMLCollaborators)
    (atts : list (string * string)) (w : World) : World :=
  InvokeCustomModifiedEvent ModifiedEvent
    (ReadXMLAttributes_loop x atts (Superclass_ReadXMLAttributes x atts w)).

(** [vtkMRMLCollectPointsNode::ProcessMRMLEvents]; [caller] is the outcome
    of [vtkMRMLNode::SafeDownCast( caller )]. *)
Definition ProcessMRMLEvents (caller : option string) (w : World) : World :=
  match caller with
  | None => w
  | Some callerNode =>
      match GetSamplingTransformNode w with
      | Some samplingNode =>
          if bool_decide (callerNode = samplingNode)
          then InvokeCustomModifiedEvent InputDataModifiedEvent w
          else w
      | None => w
      end
  end.

(** ** More observations *)

(** The value of the last attribute of [atts] with the name [name]. *)
Definition last_attribute (name : string) (atts : list (string * string))
  : option string :=
  snd <$> last (filter (λ att, att.1 = name) atts).

(** The number of points the node reports for its output. *)
Definition PointCount (w : World) : Z := fst (GetNumberOfPointsInOutput w).

(** The test of the two gates on a candidate [p] that follows [q]:
    [m > 0.0] and [distanceMm < m]. *)
Definition TooClose (m : float) (p q : Point3) : bool :=
  PrimFloat.ltb 0 m && PrimFloat.ltb (ComputedDistanceMm p q) m.

(** No point of [pts] is too close to the point before it. *)
Definition WellSpaced (m : float) (pts : list Point3) : Prop :=
  ∀ (i : nat) p q,
    pts !! i = Some p → pts !! S i = Some q → TooClose m q p = false.

(** In automatic mode no point of the bound point set is too close, for
    the configured minimum distance, to the point before it. *)
Definition SpacedWhileAutomatic (w : World) : Prop :=
  GetCollectMode w = Automatic →
  ∀ fids, SinkFiducials w = Some fids →
          WellSpaced (MinimumDistanceMm (node w)) (fiducialPosition <$> fids).

(** A string without a NUL character: read back as a C string it is
    itself. *)
Definition NulFree (s : string) : Prop := c_str s = s.


(** One request to the controller, or one notification it receives. *)
Inductive controller_step (w : World) : World → Prop :=
| request_AddPoint (collectPointsNode : ParameterNodePointer)
    (frames : FrameProvider) :
    controller_step w (AddPoint collectPointsNode frames w)
| request_RemoveLastPoint : controller_step w (RemoveLastPoint w)
| request_RemoveAllPoints : controller_step w (RemoveAllPoints w)
| notify_ProcessMRMLNodesEvents (caller : ParameterNodePointer)
    (event : Event) (frames : FrameProvider) :
    controller_step w (ProcessMRMLNodesEvents caller event frames w).




(** Collaborators of the persistence that restore nothing and extract
    nothing. *)
Definition idle_collaborators : XMLCollaborators :=
  {| Superclass_ReadXMLAttributes := λ _ w, w;
     extract_int := λ _ current, current;
     extract_double := λ _ current, current |}.

(** ** The exact value of a double *)

(** The rational a finite [double] stands for; [None] for an infinity
    and for NaN. *)
Definition exact_value (x : float) : option Q :=
  match Prim2SF x with
  | S754_zero _ => Some 0%Q
  | S754_finite s m e =>
      Some (inject_Z (if s then Z.neg m else Z.pos m) * Qpower 2 e)%Q
  | _ => None
  end.

(** The square of the Euclidean distance between two points, without
    rounding. *)
Definition exact_Distance2 (p q : Point3) : option Q :=
  match p, q with
  | (p0, p1, p2), (q0, q1, q2) =>
      match exact_value p0, exact_value p1, exact_value p2,
            exact_value q0, exact_value q1, exact_value q2 with
      | Some a0, Some a1, Some a2, Some b0, Some b1, Some b2 =>
          Some ((a0 - b0) * (a0 - b0) + (a1 - b1) * (a1 - b1)
                + (a2 - b2) * (a2 - b2))%Q
      | _, _, _, _, _, _ => None
      end
  end.

(** The Euclidean distance between [p] and [q] is at least [m], for a
    positive [m] and finite coordinates: the comparison of the squares,
    without rounding. *)
Definition EuclideanDistanceAtLeast (m : float) (p q : Point3) : bool :=
  match exact_Distance2 p q, exact_value m with
  | Some d2, Some mq => Qle_bool (mq * mq) d2
  | _, _ => false
  end.

(** The Euclidean distance between [p] and [q] is exactly [m], for a
    positive [m] and finite coordinates. *)
Definition EuclideanDistanceIs (m : float) (p q : Point3) : bool :=
  match exact_Distance2 p q, exact_value m with
  | Some d2, Some mq => Qeq_bool (mq * mq) d2
  | _, _ => false
  end.

(** ** More concrete worlds *)

(** An automatic session sampling into the point set that holds P0 at
    the origin, with the minimum distance [m]. *)
Definition gate_world (m : float) : World :=
  assign_MinimumDistanceMm m (markups_world Automatic).

(** The sides of a right triangle with the lengths 3 k, 4 k and 5 k for
    k = 795739533 / 2^24; the three numbers are doubles. *)
Definition side_3k : float := (2387218599 / 16777216)%float.
Definition side_4k : float := (3182958132 / 16777216)%float.
Definition side_5k : float := (3978697665 / 16777216)%float.

(** A session whose label counter holds the largest [int]. *)
Definition full_counter_world : World :=
  assign_LabelCounter INT_MAX (markups_world Manual).

(** A session whose label base holds a NUL character after its first
    character. *)
Definition nul_label_world : World :=
  assign_LabelBase (String.append "P" (String Ascii.zero "x"))
    (markups_world Manual).

(** A mesh of three points that carries a triangle strip over them. *)
Definition strip_mesh : vtkPolyData :=
  {| Points := Some three_points;
     Verts := Some [[0]; [1]; [2]];
     Lines := None; Polys := None; Strips := Some [[0; 1; 2]] |}.

(** * Lemmas *)

(** ** Lemmas on the loops and on the collaborators *)

Lemma InsertVertexCells_spec (count : nat) (ptId : Z) (cells : vtkCellArray) :
  InsertVertexCells count ptId cells
  = cells ++ ((λ i : nat, [ptId + Z.of_nat i]) <$> seq 0 count).
Proof.
  revert ptId cells.
  induction count as [|k IH]; intros ptId cells; simpl.
  - by rewrite app_nil_r.
  - rewrite IH, <- app_assoc. simpl. do 2 f_equal.
    + f_equal. lia.
    + rewrite <- (fmap_S_seq 0 k), <- list_fmap_compose.
      apply list_fmap_ext. intros _ i _. simpl. f_equal. lia.
Qed.

Lemma InsertVertexCells_all (n : nat) :
  InsertVertexCells n 0 [] = vertex_cells n.
Proof.
  rewrite InsertVertexCells_spec. simpl. unfold vertex_cells.
  apply list_fmap_ext. intros _ i _. f_equal.
Qed.

Lemma vertex_cells_length (n : nat) : length (vertex_cells n) = n.
Proof. unfold vertex_cells. by rewrite length_fmap, length_seq. Qed.

Lemma CopyPoints_spec (oldPoints : list Point3) (count : nat) :
  ∀ (i : nat) (newPoints : list Point3),
    (i + count ≤ length newPoints)%nat →
    (i + count ≤ length oldPoints)%nat →
    (∀ j : nat, (j < i)%nat → newPoints !! j = oldPoints !! j) →
    let result := CopyPoints count (Z.of_nat i) oldPoints newPoints in
    length result = length newPoints
    ∧ ∀ j : nat, (j < i + count)%nat → result !! j = oldPoints !! j.
Proof.
  induction count as [|k IH]; intros i newPoints Hnew Hold Hcopied; simpl.
  - split; [done|]. intros j Hj. apply Hcopied. lia.
  - replace (Z.of_nat i + 1) with (Z.of_nat (S i)) by lia.
    unfold PointArray.SetPoint, PointArray.GetPoint.
    rewrite Nat2Z.id.
    destruct (lookup_lt_is_Some_2 oldPoints i) as [p Hp]; [lia|].
    rewrite Hp.
    destruct (IH (S i) (<[i := p]> newPoints)) as [Hlen Hall].
    + rewrite length_insert. lia.
    + lia.
    + intros j Hj. destruct (decide (j = i)) as [->|Hne].
      * rewrite list_lookup_insert_eq by lia. done.
      * rewrite list_lookup_insert_ne by done. apply Hcopied. lia.
    + split.
      * rewrite Hlen. apply length_insert.
      * intros j Hj. apply Hall. lia.
Qed.

Lemma CopyPoints_all_but_last (oldPoints : list Point3) :
  let n := PointArray.GetNumberOfPoints oldPoints - 1 in
  CopyPoints (Z.to_nat n) 0 oldPoints (PointArray.SetNumberOfPoints n)
  = take (Z.to_nat n) oldPoints.
Proof.
  intros n. subst n.
  unfold PointArray.GetNumberOfPoints, PointArray.SetNumberOfPoints.
  set (k := Z.to_nat (Z.of_nat (length oldPoints) - 1)).
  assert (Hk : (k ≤ length oldPoints)%nat) by (subst k; lia).
  destruct (CopyPoints_spec oldPoints k 0%nat
              (replicate k (0, 0, 0)%float)) as [Hlen Hall].
  - rewrite length_replicate. lia.
  - lia.
  - intros j Hj. lia.
  - change (Z.of_nat 0) with 0 in Hlen, Hall.
    cbv zeta in Hlen, Hall. rewrite length_replicate in Hlen.
    apply list_eq. intros j.
    destruct (decide (j < k)%nat) as [Hj|Hj].
    + rewrite Hall by done. by rewrite lookup_take_lt.
    + rewrite lookup_take_ge by lia.
      apply lookup_ge_None_2. rewrite Hlen. lia.
Qed.

(** ** Lemmas on the scene and on the node references *)

Lemma GetNodeReference_Some (role : string) (w : World) (id : string) :
  GetNodeReference role w = Some id →
  GetNodeReferenceID role w = Some id ∧ is_Some (scene w !! id).
Proof.
  unfold GetNodeReference.
  destruct (GetNodeReferenceID role w) as [i|]; [|done].
  destruct (scene w !! i) eqn:E; [|done].
  intros [= <-]. by rewrite E.
Qed.

Lemma GetNodeReference_frame (role : string) (w w' : World) (id : string)
    (x : vtkMRMLNode) :
  NodeReferenceIDs (node w') = NodeReferenceIDs (node w) →
  scene w' = <[id := x]> (scene w) →
  is_Some (scene w !! id) →
  GetNodeReference role w' = GetNodeReference role w.
Proof.
  intros Hrefs Hscene [y Hy].
  unfold GetNodeReference, GetNodeReferenceID. rewrite Hrefs, Hscene.
  destruct (NodeReferenceIDs (node w) !! role) as [i|]; [|done].
  destruct (decide (id = i)) as [->|Hne].
  - by rewrite lookup_insert_eq, Hy.
  - by rewrite lookup_insert_ne.
Qed.

Lemma SafeDownCast_MarkupsFiducialNode_Some (p : option string) (w : World)
    (id : string) (fids : list Fiducial) :
  SafeDownCast_MarkupsFiducialNode p w = Some (id, fids) →
  p = Some id ∧ scene w !! id = Some (MarkupsFiducialNode fids).
Proof.
  unfold SafeDownCast_MarkupsFiducialNode.
  destruct p as [i|]; [|done].
  destruct (scene w !! i) as [[]|] eqn:E; try done.
  by intros [= <- <-].
Qed.

Lemma SafeDownCast_ModelNode_Some (p : option string) (w : World)
    (id : string) (pd : option vtkPolyData) :
  SafeDownCast_ModelNode p w = Some (id, pd) →
  p = Some id ∧ scene w !! id = Some (ModelNode pd).
Proof.
  unfold SafeDownCast_ModelNode.
  destruct p as [i|]; [|done].
  destruct (scene w !! i) as [[]|] eqn:E; try done.
  by intros [= <- <-].
Qed.

Lemma SinkFiducials_Some (w : World) (fids : list Fiducial) :
  SinkFiducials w = Some fids ↔
  ∃ id, SafeDownCast_MarkupsFiducialNode (GetOutputNode w) w = Some (id, fids).
Proof.
  unfold SinkFiducials.
  destruct (SafeDownCast_MarkupsFiducialNode _ w) as [[i f]|]; simpl.
  - split.
    + intros [= ->]. by exists i.
    + by intros [? [= _ ->]].
  - split; [done|]. by intros [? ?].
Qed.

Lemma SinkPolyData_Some (w : World) (pd : option vtkPolyData) :
  SinkPolyData w = Some pd ↔
  ∃ id, SafeDownCast_ModelNode (GetOutputNode w) w = Some (id, pd).
Proof.
  unfold SinkPolyData.
  destruct (SafeDownCast_ModelNode _ w) as [[i f]|]; simpl.
  - split.
    + intros [= ->]. by exists i.
    + by intros [? [= _ ->]].
  - split; [done|]. by intros [? ?].
Qed.


(** What a store to the bound output node leaves in place. *)
Lemma output_after_store (w w' : World) (id : string) (x : vtkMRMLNode) :
  GetOutputNode w = Some id →
  NodeReferenceIDs (node w') = NodeReferenceIDs (node w) →
  scene w' = <[id := x]> (scene w) →
  GetOutputNode w' = Some id ∧ scene w' !! id = Some x.
Proof.
  intros Hout Hrefs Hscene.
  destruct (GetNodeReference_Some _ _ _ Hout) as [_ Hin].
  split.
  - unfold GetOutputNode in *.
    by rewrite (GetNodeReference_frame _ w w' id x).
  - by rewrite Hscene, lookup_insert_eq.
Qed.

Lemma SinkPoints_fiducials (w : World) (id : string) (fids : list Fiducial) :
  GetOutputNode w = Some id →
  scene w !! id = Some (MarkupsFiducialNode fids) →
  SinkPoints w = Some (fiducialPosition <$> fids)
  ∧ SinkFiducials w = Some fids.
Proof.
  intros Hout Hid. unfold SinkPoints, SinkFiducials. rewrite Hout. simpl.
  by rewrite Hid.
Qed.

Lemma SinkPoints_poly_data (w : World) (id : string) (pd : vtkPolyData) :
  GetOutputNode w = Some id →
  scene w !! id = Some (ModelNode (Some pd)) →
  SinkPoints w = Some (default [] (Points pd))
  ∧ SinkPolyData w = Some (Some pd).
Proof.
  intros Hout Hid. unfold SinkPoints, SinkPolyData. rewrite Hout. simpl.
  by rewrite Hid.
Qed.

Lemma last_position (fids : list Fiducial) :
  Markups.GetNthFiducialPosition (Z.of_nat (length fids) - 1) fids
  = default (0, 0, 0)%float (last (fiducialPosition <$> fids)).
Proof.
  unfold Markups.GetNthFiducialPosition.
  rewrite fmap_last, last_lookup.
  replace (Z.to_nat (Z.of_nat (length fids) - 1)) with (pred (length fids))
    by lia.
  by destruct (fids !! pred (length fids)).
Qed.

Lemma last_point (pts : list Point3) :
  PointArray.GetPoint (Z.of_nat (length pts) - 1) pts
  = default (0, 0, 0)%float (last pts).
Proof.
  unfold PointArray.GetPoint. rewrite last_lookup.
  destruct pts as [|p pts]; [done|].
  replace (Z.to_nat (Z.of_nat (length (p :: pts)) - 1))
    with (pred (length (p :: pts))) by (simpl; lia).
  by destruct ((p :: pts) !! pred (length (p :: pts))).
Qed.

Lemma label_set_on_new_fiducial (fids : list Fiducial) (label : string)
    (p : Point3) :
  Markups.SetNthFiducialLabel (Z.of_nat (length fids)) label
    (fids ++ [mkFiducial "" p])
  = fids ++ [mkFiducial label p].
Proof.
  unfold Markups.SetNthFiducialLabel. rewrite Nat2Z.id.
  replace (length fids) with (length fids + 0)%nat at 1 by lia.
  by rewrite alter_app_r.
Qed.

(** ** The machine integers and the C strings *)

Lemma int_wrap_id (z : Z) : INT_MIN ≤ z ≤ INT_MAX → int_wrap z = z.
Proof.
  unfold int_wrap, INT_MIN, INT_MAX. intros Hz.
  rewrite Z.mod_small by lia. lia.
Qed.

Lemma int_wrap_succ_ne (c : Z) : int_wrap (c + 1) ≠ c.
Proof.
  unfold int_wrap, INT_MIN. intros H.
  pose proof (Z.div_mod (c + 1 - -2147483648) 4294967296). lia.
Qed.

Lemma c_str_app (a b : string) :
  NulFree a → c_str (String.append a b) = String.append a (c_str b).
Proof.
  unfold NulFree. induction a as [|c a IH]; simpl; [done|].
  case_bool_decide as Hc; [done|]. intros [= Ha]. by rewrite IH.
Qed.

Lemma NilEmpty_string_of_uint_NulFree (d : Decimal.uint) :
  NulFree (NilEmpty.string_of_uint d).
Proof.
  unfold NulFree. induction d as [|d IH|d IH|d IH|d IH|d IH|d IH|d IH|d IH
                                  |d IH|d IH]; simpl; [done|..];
    by rewrite IH.
Qed.

Lemma string_of_uint_NulFree (d : Decimal.uint) :
  NulFree (NilZero.string_of_uint d).
Proof.
  destruct d; [done|..]; apply NilEmpty_string_of_uint_NulFree.
Qed.

Lemma stream_int_NulFree (n : Z) : NulFree (stream_int n).
Proof.
  unfold stream_int, NilZero.string_of_int.
  destruct (Z.to_int n) as [d|d]; [apply string_of_uint_NulFree|].
  unfold NulFree. simpl. by rewrite string_of_uint_NulFree.
Qed.

(** The label of the source, read back through [c_str()], is the label
    base followed by the number when the label base holds no NUL. *)
Lemma label_c_str (base : string) (n : Z) :
  NulFree base →
  c_str (String.append base (stream_int n))
  = String.append base (stream_int n).
Proof.
  intros Hbase. rewrite c_str_app by done. by rewrite stream_int_NulFree.
Qed.

(** ** The set-macros *)

Lemma SetLabelCounter_node (c : Z) (w : World) :
  node (SetLabelCounter c w) = with_counter c (node w).
Proof.
  unfold SetLabelCounter, with_counter. case_bool_decide as Hc; [|done].
  destruct (node w); simpl in *. by subst.
Qed.

Lemma SetLabelCounter_frame (c : Z) (w : World) :
  scene (SetLabelCounter c w) = scene w
  ∧ messages (SetLabelCounter c w) = messages w.
Proof. unfold SetLabelCounter. by case_bool_decide. Qed.

Lemma SetLabelCounter_invoked (c : Z) (w : World) :
  LabelCounter (node w) ≠ c →
  invoked (SetLabelCounter c w) = invoked w ++ [ModifiedEvent].
Proof. intros Hc. unfold SetLabelCounter. by rewrite bool_decide_false. Qed.

Lemma SetCollectMode_node (mode : Z) (w : World) :
  node (SetCollectMode mode w) = with_mode mode (node w).
Proof.
  unfold SetCollectMode, with_mode. case_bool_decide as Hc; [|done].
  destruct (node w); simpl in *. by subst.
Qed.

Lemma SetCollectMode_frame (mode : Z) (w : World) :
  scene (SetCollectMode mode w) = scene w
  ∧ messages (SetCollectMode mode w) = messages w.
Proof. unfold SetCollectMode. by case_bool_decide. Qed.

(** ** The comparisons of doubles *)

Lemma float_eqb_not_ltb (x y : float) :
  PrimFloat.eqb x y = true → PrimFloat.ltb x y = false.
Proof.
  rewrite FloatAxioms.eqb_spec, FloatAxioms.ltb_spec.
  unfold SFeqb, SFltb. by destruct (SFcompare _ _) as [[]|].
Qed.

Lemma TooClose_true (m : float) (p q : Point3) :
  TooClose m p q = true ↔
  PrimFloat.ltb 0 m = true ∧ PrimFloat.ltb (ComputedDistanceMm p q) m = true.
Proof. unfold TooClose. by rewrite andb_true_iff. Qed.

Lemma TooClose_false (m : float) (p q : Point3) :
  TooClose m p q = false ↔
  PrimFloat.ltb 0 m = false ∨ PrimFloat.ltb (ComputedDistanceMm p q) m = false.
Proof. unfold TooClose. by rewrite andb_false_iff. Qed.

(** ** The two appends, case by case *)

Lemma set_scene_same (w : World) : set_scene (scene w) w = w.
Proof. by destruct w. Qed.

Lemma last_None_length {A} (l : list A) :
  last l = None ↔ ¬ (Z.of_nat (length l) > 0).
Proof.
  rewrite last_None. destruct l; simpl; split; try done; lia.
Qed.

Lemma AddPointToMarkups_cases (p : Point3) (w : World) (id : string)
    (fids : list Fiducial) :
  SafeDownCast_MarkupsFiducialNode (GetOutputNode w) w = Some (id, fids) →
  let m := ComputeMinimumDistanceFromPreviousPointMm w in
  let pts := fiducialPosition <$> fids in
  ((∃ q, last pts = Some q ∧ TooClose m p q = true)
   ∧ AddPointToMarkups p w = w)
  ∨ ((last pts = None ∨ ∃ q, last pts = Some q ∧ TooClose m p q = false)
     ∧ AddPointToMarkups p w
       = SetLabelCounter (int_wrap (LabelCounter (node w) + 1))
           (store_fiducials id
              (fids ++ [mkFiducial
                          (c_str
                             (String.append (LabelBase (node w))
                                (stream_int (LabelCounter (node w))))) p])
              w)).
Proof.
  intros Hsink m pts. unfold AddPointToMarkups. rewrite Hsink.
  fold m. unfold Markups.AddFiducialFromArray, Markups.GetNumberOfFiducials.
  rewrite label_set_on_new_fiducial, last_position. fold pts.
  destruct (last pts) as [q|] eqn:Hlast.
  - assert (Hn : Z.of_nat (length fids) > 0).
    { destruct (decide (Z.of_nat (length fids) > 0)) as [|Hn]; [done|].
      apply last_None_length in Hn. unfold pts in Hlast.
      rewrite fmap_last in Hlast. by rewrite Hn in Hlast. }
    rewrite (bool_decide_true _ Hn), andb_true_r. simpl.
    change (if PrimFloat.ltb 0 m
            then PrimFloat.ltb (PrimFloat.sqrt (Distance2BetweenPoints p q)) m
            else false) with (TooClose m p q).
    destruct (TooClose m p q) eqn:Hclose; [left|right]; eauto.
  - assert (Hn : ¬ Z.of_nat (length fids) > 0).
    { apply last_None_length. unfold pts in Hlast.
      rewrite fmap_last in Hlast. by destruct (last fids). }
    rewrite (bool_decide_false _ Hn), andb_false_r. right. auto.
Qed.

Lemma AddPointToModel_cases (p : Point3) (w : World) (id : string)
    (opd : option vtkPolyData) :
  SafeDownCast_ModelNode (GetOutputNode w) w = Some (id, opd) →
  let m := ComputeMinimumDistanceFromPreviousPointMm w in
  let pd := default vtkPolyData_New opd in
  let pts := default [] (Points pd) in
  ((∃ q, last pts = Some q ∧ TooClose m p q = true)
   ∧ AddPointToModel p w = w)
  ∨ ((last pts = None ∨ ∃ q, last pts = Some q ∧ TooClose m p q = false)
     ∧ AddPointToModel p w
       = store_poly_data id
           (UpdateCellsForPolyData (PolyData_SetPoints (pts ++ [p]) pd)) w).
Proof.
  intros Hsink m pd pts. unfold AddPointToModel. rewrite Hsink.
  fold m.
  change (match opd with Some pd0 => pd0 | None => vtkPolyData_New end)
    with pd.
  change (match Points pd with Some l => l | None => [] end) with pts.
  unfold PointArray.GetNumberOfPoints, PointArray.InsertNextPoint.
  rewrite last_point.
  destruct (last pts) as [q|] eqn:Hlast.
  - assert (Hn : Z.of_nat (length pts) > 0).
    { destruct (decide (Z.of_nat (length pts) > 0)) as [|Hn]; [done|].
      apply last_None_length in Hn. by rewrite Hn in Hlast. }
    rewrite (bool_decide_true _ Hn), andb_true_r. simpl.
    change (if PrimFloat.ltb 0 m
            then PrimFloat.ltb (PrimFloat.sqrt (Distance2BetweenPoints p q)) m
            else false) with (TooClose m p q).
    destruct (TooClose m p q) eqn:Hclose; [left|right; by eauto].
    split; [by eauto|].
    destruct (SafeDownCast_ModelNode_Some _ _ _ _ Hsink) as [_ Hid].
    assert (Hpts : Points pd = Some pts).
    { subst pts. destruct (Points pd); [done|]. by simpl in Hlast. }
    assert (Hopd : opd = Some pd).
    { subst pd. destruct opd; [done|]. by simpl in Hpts. }
    assert (Hsame : PolyData_SetPoints pts pd = pd).
    { unfold PolyData_SetPoints. rewrite <- Hpts. by destruct pd. }
    unfold store_poly_data. rewrite Hsame, <- Hopd.
    rewrite insert_id by done. apply set_scene_same.
  - assert (Hn : ¬ Z.of_nat (length pts) > 0) by by apply last_None_length.
    rewrite (bool_decide_false _ Hn), andb_false_r. right. auto.
Qed.

Lemma SinkPoints_of_fiducials (w : World) (fids : list Fiducial) :
  SinkFiducials w = Some fids →
  SinkPoints w = Some (fiducialPosition <$> fids).
Proof.
  intros [id Hid]%SinkFiducials_Some.
  apply SafeDownCast_MarkupsFiducialNode_Some in Hid as [Hout Hid].
  by apply (SinkPoints_fiducials w id).
Qed.

Lemma SinkPoints_of_poly_data (w : World) (opd : option vtkPolyData) :
  SinkPolyData w = Some opd →
  SinkPoints w = Some (default [] (Points (default vtkPolyData_New opd))).
Proof.
  intros [id Hid]%SinkPolyData_Some.
  apply SafeDownCast_ModelNode_Some in Hid as [Hout Hid].
  unfold SinkPoints. rewrite Hout, Hid. by destruct opd.
Qed.

Lemma sink_after_store_markups (w : World) (id : string)
    (fids : list Fiducial) :
  GetOutputNode w = Some id →
  let w' := store_fiducials id fids w in
  SinkPoints w' = Some (fiducialPosition <$> fids)
  ∧ SinkFiducials w' = Some fids.
Proof.
  intros Hout w'.
  destruct (output_after_store w w' id (MarkupsFiducialNode fids))
    as [Hout' Hid']; [done..|].
  by apply (SinkPoints_fiducials w' id).
Qed.

Lemma sink_after_store_fiducials (w : World) (id : string) (c : Z)
    (fids : list Fiducial) :
  GetOutputNode w = Some id →
  let w' := SetLabelCounter c (store_fiducials id fids w) in
  SinkPoints w' = Some (fiducialPosition <$> fids)
  ∧ SinkFiducials w' = Some fids.
Proof.
  intros Hout w'.
  destruct (output_after_store w w' id (MarkupsFiducialNode fids))
    as [Hout' Hid']; [done| |..].
  - subst w'. by rewrite SetLabelCounter_node.
  - subst w'. by rewrite (proj1 (SetLabelCounter_frame _ _)).
  - by apply (SinkPoints_fiducials w' id).
Qed.

Lemma sink_after_store_poly_data (w : World) (id : string)
    (pd : vtkPolyData) :
  GetOutputNode w = Some id →
  let w' := store_poly_data id pd w in
  SinkPoints w' = Some (default [] (Points pd))
  ∧ SinkPolyData w' = Some (Some pd).
Proof.
  intros Hout w'.
  destruct (output_after_store w w' id (ModelNode (Some pd)))
    as [Hout' Hid']; [done..|].
  by apply (SinkPoints_poly_data w' id).
Qed.

Lemma append_not_same {A} (l : list A) (x : A) : l ++ [x] ≠ l.
Proof.
  intros H. apply (f_equal length) in H. rewrite length_app in H.
  simpl in H. lia.
Qed.

(** The outcome of an append: the world is untouched, or the candidate is
    the new last point. *)
Lemma AddPointToMarkups_outcome (p : Point3) (w : World)
    (fids : list Fiducial) :
  SinkFiducials w = Some fids →
  let m := ComputeMinimumDistanceFromPreviousPointMm w in
  let pts := fiducialPosition <$> fids in
  let label :=
    c_str
      (String.append (LabelBase (node w))
         (stream_int (LabelCounter (node w)))) in
  let w' := AddPointToMarkups p w in
  ((∃ q, last pts = Some q ∧ TooClose m p q = true) ∧ w' = w)
  ∨ ((last pts = None ∨ ∃ q, last pts = Some q ∧ TooClose m p q = false)
     ∧ SinkPoints w' = Some (pts ++ [p])
     ∧ SinkFiducials w' = Some (fids ++ [mkFiducial label p])
     ∧ node w'
       = with_counter (int_wrap (LabelCounter (node w) + 1)) (node w)
     ∧ messages w' = messages w
     ∧ invoked w' = invoked w ++ [ModifiedEvent]).
Proof.
  intros [id Hid]%SinkFiducials_Some m pts label w'.
  destruct (AddPointToMarkups_cases p w id fids Hid)
    as [(Hq & Hw)|(Hc & Hw)]; [left; by eauto|right].
  apply SafeDownCast_MarkupsFiducialNode_Some in Hid as [Hout Hid].
  subst w'. rewrite Hw.
  destruct (sink_after_store_fiducials w id
              (int_wrap (LabelCounter (node w) + 1))
              (fids ++ [mkFiducial label p]) Hout) as [Hpts Hfids].
  fold label. split; [done|].
  split; [rewrite Hpts; by rewrite fmap_app|].
  split; [done|].
  split; [by rewrite SetLabelCounter_node|].
  split; [by rewrite (proj2 (SetLabelCounter_frame _ _))|].
  rewrite SetLabelCounter_invoked; [done|].
  simpl. intros Hc'. symmetry in Hc'. by apply int_wrap_succ_ne in Hc'.
Qed.

Lemma AddPointToModel_outcome (p : Point3) (w : World)
    (opd : option vtkPolyData) :
  SinkPolyData w = Some opd →
  let m := ComputeMinimumDistanceFromPreviousPointMm w in
  let pd := default vtkPolyData_New opd in
  let pts := default [] (Points pd) in
  let w' := AddPointToModel p w in
  ((∃ q, last pts = Some q ∧ TooClose m p q = true) ∧ w' = w)
  ∨ ((last pts = None ∨ ∃ q, last pts = Some q ∧ TooClose m p q = false)
     ∧ SinkPoints w' = Some (pts ++ [p])
     ∧ SinkPolyData w'
       = Some (Some (UpdateCellsForPolyData
                       (PolyData_SetPoints (pts ++ [p]) pd)))
     ∧ node w' = node w
     ∧ messages w' = messages w
     ∧ invoked w' = invoked w).
Proof.
  intros [id Hid]%SinkPolyData_Some m pd pts w'.
  destruct (AddPointToModel_cases p w id opd Hid)
    as [(Hq & Hw)|(Hc & Hw)]; [left; by eauto|right].
  apply SafeDownCast_ModelNode_Some in Hid as [Hout Hid].
  subst w'. rewrite Hw.
  destruct (sink_after_store_poly_data w id
              (UpdateCellsForPolyData (PolyData_SetPoints (pts ++ [p]) pd))
              Hout) as [Hpts Hpd].
  fold pd. fold pts. by rewrite Hpts, Hpd.
Qed.

(** The gate as both appends apply it, from their outcomes. *)
Lemma gate_from_outcome (add : Point3 → World → World) (p : Point3)
    (w : World) (pts : list Point3) (m : float) :
  SinkPoints w = Some pts →
  ((∃ q, last pts = Some q ∧ TooClose m p q = true) ∧ add p w = w)
  ∨ ((last pts = None ∨ ∃ q, last pts = Some q ∧ TooClose m p q = false)
     ∧ SinkPoints (add p w) = Some (pts ++ [p])) →
  (PrimFloat.ltb 0 m = false ∨ last pts = None → Appends add p w)
  ∧ (∀ q, PrimFloat.ltb 0 m = true → last pts = Some q →
       (Appends add p w ↔ PrimFloat.ltb (ComputedDistanceMm p q) m = false)
       ∧ (PrimFloat.ltb (ComputedDistanceMm p q) m = true → add p w = w)
       ∧ (PrimFloat.eqb (ComputedDistanceMm p q) m = true →
          Appends add p w)).
Proof.
  intros Hpts Hcases.
  assert (Hadm : SinkPoints (add p w) = Some (pts ++ [p]) → Appends add p w)
    by (intros; by exists pts).
  assert (Hrej : add p w = w → ¬ Appends add p w).
  { intros Hw (pts' & Hpts' & Hadd). rewrite Hw, Hpts' in Hadd.
    injection Hadd as Hadd. symmetry in Hadd. by apply append_not_same in Hadd. }
  split.
  - intros Hopen. destruct Hcases as [((q & Hq & Hclose) & _)|(_ & Hadd)].
    + apply TooClose_true in Hclose as [Hm _].
      destruct Hopen as [Hle|Hnone]; congruence.
    + by apply Hadm.
  - intros q Hm Hq.
    destruct Hcases as [((q' & Hq' & Hclose) & Hw)|(Hc & Hadd)].
    + assert (q' = q) as -> by congruence.
      apply TooClose_true in Hclose as [_ Hd].
      split; [|split].
      * split; [intros Ha; by apply Hrej in Ha|intros; congruence].
      * done.
      * intros He%float_eqb_not_ltb. congruence.
    + assert (Hge : PrimFloat.ltb (ComputedDistanceMm p q) m = false).
      { destruct Hc as [Hnone|(q' & Hq' & Hclose)]; [congruence|].
        assert (q' = q) as -> by congruence.
        apply TooClose_false in Hclose as [Hz|Hd]; congruence. }
      split; [|split].
      * split; [done|intros; by apply Hadm].
      * intros; congruence.
      * intros; by apply Hadm.
Qed.

(** ** The mesh sink *)

Lemma PolyData_GetNumberOfPoints_nonneg (pd : vtkPolyData) :
  0 ≤ PolyData_GetNumberOfPoints pd.
Proof.
  unfold PolyData_GetNumberOfPoints, PointArray.GetNumberOfPoints.
  destruct (Points pd); lia.
Qed.

Lemma no_cells (cells : option vtkCellArray) :
  cells_of cells = [] → GetNumberOfCellsIn cells = 0.
Proof. destruct cells as [cs|]; simpl; [|done]. by intros ->. Qed.

(** [UpdateCellsForPolyData] leaves the triangle strips as they are. *)
Lemma UpdateCellsForPolyData_strips (pd : vtkPolyData) :
  Strips (UpdateCellsForPolyData pd) = Strips pd.
Proof. done. Qed.

Lemma UpdateCellsForPolyData_invariant (pd : vtkPolyData) :
  cells_of (Strips pd) = [] →
  MeshInvariant (UpdateCellsForPolyData pd).
Proof.
  intros Hstrips.
  pose proof (PolyData_GetNumberOfPoints_nonneg pd) as Hn.
  assert (Hsame : PolyData_GetNumberOfPoints (UpdateCellsForPolyData pd)
                  = PolyData_GetNumberOfPoints pd) by done.
  split; rewrite ?Hsame; simpl; try done.
  - unfold PolyData_GetNumberOfCells. simpl.
    rewrite (no_cells _ Hstrips).
    rewrite InsertVertexCells_all, vertex_cells_length. lia.
  - apply InsertVertexCells_all.
Qed.

Lemma empty_geometry_invariant (pd : vtkPolyData) :
  PolyData_GetNumberOfPoints pd = 0 →
  NoStaleCells pd →
  MeshInvariant (PolyData_SetPoints [] pd).
Proof.
  intros Hn [Hs Hstale]. destruct (Hstale Hn) as (Hv & Hl & Hp).
  split; simpl; try done.
  unfold PolyData_GetNumberOfCells. simpl.
  by rewrite (no_cells _ Hv), (no_cells _ Hl), (no_cells _ Hp),
    (no_cells _ Hs).
Qed.

Lemma invariant_no_stale_cells (pd : vtkPolyData) :
  MeshInvariant pd → NoStaleCells pd.
Proof.
  intros [_ Hv Hl Hp Hs]. split; [done|]. intros Hn. by rewrite Hv, Hn.
Qed.

Lemma NoStaleCells_strips (opd : option vtkPolyData) :
  (∀ pd, opd = Some pd → NoStaleCells pd) →
  cells_of (Strips (default vtkPolyData_New opd)) = [].
Proof.
  intros Hstale. destruct opd as [pd|]; [|done]. by apply Hstale.
Qed.

Lemma RemoveLastPoint_mesh (w : World) (id : string)
    (opd : option vtkPolyData) :
  SafeDownCast_ModelNode (GetOutputNode w) w = Some (id, opd) →
  let pd := default vtkPolyData_New opd in
  let pts := default [] (Points pd) in
  RemoveLastPoint w
  = store_poly_data id
      (if bool_decide (pts = [])
       then PolyData_SetPoints [] pd
       else UpdateCellsForPolyData
              (PolyData_SetPoints (take (length pts - 1) pts) pd)) w.
Proof.
  intros Hsink pd pts.
  destruct (SafeDownCast_ModelNode_Some _ _ _ _ Hsink) as [Hout Hid].
  unfold RemoveLastPoint. rewrite Hout, Hid.
  unfold SafeDownCast_ModelNode. rewrite Hid.
  unfold RemoveLastPointFromModel.
  change (match opd with Some pd0 => pd0 | None => vtkPolyData_New end)
    with pd.
  subst pts. destruct (Points pd) as [old|]; simpl; [|done].
  unfold PointArray.GetNumberOfPoints at 1.
  destruct old as [|p old].
  - done.
  - rewrite bool_decide_false by (simpl; lia).
    rewrite bool_decide_false by done.
    rewrite CopyPoints_all_but_last.
    unfold PointArray.GetNumberOfPoints. do 4 f_equal. lia.
Qed.

Lemma RemoveAllPoints_mesh (w : World) (id : string)
    (opd : option vtkPolyData) :
  SafeDownCast_ModelNode (GetOutputNode w) w = Some (id, opd) →
  RemoveAllPoints w = store_poly_data id vtkPolyData_New w.
Proof.
  intros Hsink.
  destruct (SafeDownCast_ModelNode_Some _ _ _ _ Hsink) as [Hout Hid].
  unfold RemoveAllPoints. by rewrite Hout, Hid.
Qed.

Lemma appends_changes_world (add : Point3 → World → World) (p : Point3)
    (w : World) :
  Appends add p w → add p w ≠ w.
Proof.
  intros (pts & Hpts & Hadd) Hw. rewrite Hw, Hpts in Hadd.
  injection Hadd as Hadd. symmetry in Hadd. by apply append_not_same in Hadd.
Qed.

Lemma mesh_step_invariant (w w' : World) :
  NoStaleSink w → mesh_step w w' → MeshSinkInvariant w'.
Proof.
  intros (opd & Hsink & Hstale) Hstep.
  pose proof Hsink as [id Hid]%SinkPolyData_Some.
  destruct (SafeDownCast_ModelNode_Some _ _ _ _ Hid) as [Hout Hnode].
  destruct Hstep as [p Hadm| |].
  - destruct (AddPointToModel_outcome p w opd Hsink)
      as [(_ & Hw)|(_ & _ & Hpd & _)].
    + by apply appends_changes_world in Hadm.
    + eexists. split; [exact Hpd|]. apply UpdateCellsForPolyData_invariant.
      by apply NoStaleCells_strips.
  - rewrite (RemoveLastPoint_mesh w id opd Hid).
    eexists. split; [by apply sink_after_store_poly_data|].
    case_bool_decide as Hpts.
    + apply empty_geometry_invariant.
      * unfold PolyData_GetNumberOfPoints, PointArray.GetNumberOfPoints.
        destruct (Points (default vtkPolyData_New opd)); [|done].
        simpl in Hpts. by subst.
      * destruct opd as [pd|]; [by apply Hstale|]. by split.
    + apply UpdateCellsForPolyData_invariant. by apply NoStaleCells_strips.
  - rewrite (RemoveAllPoints_mesh w id opd Hid).
    eexists. split; [by apply sink_after_store_poly_data|].
    by split.
Qed.

Lemma mesh_steps_invariant (w w' : World) :
  NoStaleSink w → tc mesh_step w w' → MeshSinkInvariant w'.
Proof.
  intros Hstale Hsteps. induction Hsteps as [w w' Hstep|w w1 w' Hstep _ IH].
  - by apply (mesh_step_invariant w).
  - apply IH. destruct (mesh_step_invariant w w1 Hstale Hstep)
      as (pd & Hpd & Hinv).
    exists (Some pd). split; [done|].
    intros pd' [= <-]. by apply invariant_no_stale_cells.
Qed.

Lemma RemoveLastPoint_empty_mesh (w : World) (pd : vtkPolyData) :
  SinkPolyData w = Some (Some pd) →
  PolyData_GetNumberOfPoints pd = 0 →
  SinkPolyData (RemoveLastPoint w) = Some (Some (PolyData_SetPoints [] pd))
  ∧ node (RemoveLastPoint w) = node w
  ∧ messages (RemoveLastPoint w) = messages w.
Proof.
  intros [id Hid]%SinkPolyData_Some Hn.
  destruct (SafeDownCast_ModelNode_Some _ _ _ _ Hid) as [Hout Hnode].
  rewrite (RemoveLastPoint_mesh w id (Some pd) Hid). simpl.
  assert (Hpts : default [] (Points pd) = []).
  { unfold PolyData_GetNumberOfPoints, PointArray.GetNumberOfPoints in Hn.
    destruct (Points pd) as [[|]|]; simpl in *; done || lia. }
  rewrite Hpts, bool_decide_true by done.
  split; [|done]. by apply sink_after_store_poly_data.
Qed.

(** ** What the controller does to the session *)

Lemma ComputePointCoordinates_success (frames : FrameProvider)
    (out : Point3) (w : World) (samplingNode : string) :
  GetSamplingTransformNode w = Some samplingNode →
  ∃ p, ComputePointCoordinates ParameterNode frames out w = (p, true, w).
Proof.
  intros Hs. unfold ComputePointCoordinates. rewrite Hs.
  destruct (GetAnchorTransformNode w); eauto.
Qed.

(** [AddPoint] reports an error and stops, or hands the computed point to
    the append of the bound sink. *)
Lemma AddPoint_outcome (collectPointsNode : ParameterNodePointer)
    (frames : FrameProvider) (w : World) :
  let w' := AddPoint collectPointsNode frames w in
  (∃ text, w' = vtkErrorMacro text w)
  ∨ (∃ p, is_Some (SinkFiducials w)
          ∧ ComputePointCoordinates ParameterNode frames (0, 0, 0)%float w
            = (p, true, w)
          ∧ w' = AddPointToMarkups p w)
  ∨ (∃ p, is_Some (SinkPolyData w)
          ∧ ComputePointCoordinates ParameterNode frames (0, 0, 0)%float w
            = (p, true, w)
          ∧ w' = AddPointToModel p w).
Proof.
  unfold AddPoint. destruct collectPointsNode; [left; by eauto|].
  destruct (GetSamplingTransformNode w) as [s|] eqn:Hs; [|left; by eauto].
  destruct (GetOutputNode w) as [o|] eqn:Ho; [|left; by eauto].
  destruct (ComputePointCoordinates_success frames (0, 0, 0)%float w s Hs)
    as [p Hp].
  rewrite Hp. simpl.
  destruct (scene w !! o) as [[]|] eqn:Hnode; try (left; by eauto).
  - right. left. exists p. split; [|done].
    unfold SinkFiducials. rewrite Ho. simpl. by rewrite Hnode.
  - right. right. exists p. split; [|done].
    unfold SinkPolyData. rewrite Ho. simpl. by rewrite Hnode.
Qed.

Lemma AddPointToModel_node (p : Point3) (w : World) :
  node (AddPointToModel p w) = node w.
Proof. unfold AddPointToModel. by repeat case_match. Qed.

Lemma AddPointToMarkups_node (p : Point3) (w : World) :
  AddPointToMarkups p w = w
  ∨ (∃ text, AddPointToMarkups p w = vtkErrorMacro text w)
  ∨ (Appends AddPointToMarkups p w
     ∧ node (AddPointToMarkups p w)
       = with_counter (int_wrap (LabelCounter (node w) + 1)) (node w)).
Proof.
  destruct (SinkFiducials w) as [fids|] eqn:Hsink.
  - destruct (AddPointToMarkups_outcome p w fids Hsink)
      as [(_ & Hw)|(_ & Hpts & _ & Hnode & _)]; [by left|].
    right. right. split; [|done].
    exists (fiducialPosition <$> fids).
    split; [by apply SinkPoints_of_fiducials|done].
  - right. left. unfold SinkFiducials in Hsink. unfold AddPointToMarkups.
    destruct (SafeDownCast_MarkupsFiducialNode _ w); [done|]. eauto.
Qed.

Lemma RemoveLastPoint_node (w : World) :
  node (RemoveLastPoint w) = node w.
Proof.
  unfold RemoveLastPoint, RemoveLastPointFromModel.
  by repeat case_match.
Qed.

Lemma RemoveAllPoints_node (w : World) :
  node (RemoveAllPoints w) = node w.
Proof. unfold RemoveAllPoints. by repeat case_match. Qed.

(** The node after [AddPoint]: as before, or with the label counter
    advanced after an append to a point set. *)
Lemma AddPoint_node (collectPointsNode : ParameterNodePointer)
    (frames : FrameProvider) (w : World) :
  let w' := AddPoint collectPointsNode frames w in
  node w' = node w
  ∨ node w' = with_counter (int_wrap (LabelCounter (node w) + 1)) (node w).
Proof.
  destruct (AddPoint_outcome collectPointsNode frames w)
    as [[text Hw]|[(p & _ & _ & Hw)|(p & _ & _ & Hw)]]; simpl; rewrite Hw.
  - by left.
  - destruct (AddPointToMarkups_node p w) as [Hsame|[[text Ht]|[_ Hn]]].
    + left. by rewrite Hsame.
    + left. by rewrite Ht.
    + by right.
  - left. apply AddPointToModel_node.
Qed.

Lemma ProcessMRMLNodesEvents_outcome (caller : ParameterNodePointer)
    (event : Event) (frames : FrameProvider) (w : World) :
  let w' := ProcessMRMLNodesEvents caller event frames w in
  w' = w
  ∨ (∃ text, w' = vtkErrorMacro text w)
  ∨ (GetCollectMode w = Automatic
     ∧ (GetOutputNode w = None ∨ GetSamplingTransformNode w = None)
     ∧ w' = fallback_to_manual w)
  ∨ (GetCollectMode w = Automatic
     ∧ is_Some (GetOutputNode w) ∧ is_Some (GetSamplingTransformNode w)
     ∧ w' = AddPoint ParameterNode frames w).
Proof.
  unfold ProcessMRMLNodesEvents.
  destruct caller; [right; left; by eauto|].
  destruct event; [by left|].
  case_bool_decide as Hmode; [|by left].
  destruct (GetOutputNode w) as [o|] eqn:Ho.
  - destruct (GetSamplingTransformNode w) as [s|] eqn:Hs.
    + right. right. right. eauto.
    + right. right. left. eauto.
  - right. right. left. eauto.
Qed.

Lemma fallback_to_manual_node (w : World) :
  node (fallback_to_manual w) = with_mode Manual (node w).
Proof.
  unfold fallback_to_manual, SetCollectModeToManual.
  by rewrite SetCollectMode_node.
Qed.

Lemma fallback_to_manual_frame (w : World) :
  scene (fallback_to_manual w) = scene w
  ∧ messages (fallback_to_manual w)
    = messages w
      ++ [WarningMessage
            "Collect fiducials node is not fully set up. Setting to manual collection."].
Proof.
  unfold fallback_to_manual, SetCollectModeToManual.
  by destruct (SetCollectMode_frame Manual
                 (vtkWarningMacro
                    "Collect fiducials node is not fully set up. Setting to manual collection."
                    w)) as [-> ->].
Qed.

(** Every step leaves the label counter where it is, or advances it as
    the [int] it is. *)
Lemma session_step_counter (w w' : World) :
  session_step w w' →
  LabelCounter (node w') = LabelCounter (node w)
  ∨ LabelCounter (node w') = int_wrap (LabelCounter (node w) + 1).
Proof.
  assert (Hadd : ∀ ptr frames,
             LabelCounter (node (AddPoint ptr frames w))
             = LabelCounter (node w)
             ∨ LabelCounter (node (AddPoint ptr frames w))
               = int_wrap (LabelCounter (node w) + 1)).
  { intros ptr frames.
    destruct (AddPoint_node ptr frames w) as [->| ->]; simpl; auto. }
  destruct 1 as [ptr frames| | |caller event frames|nodeID|nodeID|nodeID|s].
  - apply Hadd.
  - left. by rewrite RemoveLastPoint_node.
  - left. by rewrite RemoveAllPoints_node.
  - destruct (ProcessMRMLNodesEvents_outcome caller event frames w)
      as [->|[[text ->]|[(_ & _ & ->)|(_ & _ & _ & ->)]]];
      [by left|by left| |apply Hadd].
    left. by rewrite fallback_to_manual_node.
  - left. unfold SetAndObserveSamplingTransformNodeID. by repeat case_match.
  - left. unfold SetAndObserveAnchorTransformNodeID. by repeat case_match.
  - left. unfold SetOutputNodeID. by repeat case_match.
  - by left.
Qed.

(** While it is below the largest [int], a step leaves the label counter
    where it is or makes it one higher. *)
Lemma session_step_counter_below (w w' : World) :
  session_step w w' →
  INT_MIN ≤ LabelCounter (node w) < INT_MAX →
  LabelCounter (node w) ≤ LabelCounter (node w') ≤ LabelCounter (node w) + 1.
Proof.
  intros Hstep Hc. destruct (session_step_counter w w' Hstep) as [->| ->].
  - lia.
  - rewrite int_wrap_id by lia. lia.
Qed.

Lemma session_step_mode (w w' : World) :
  session_step w w' →
  CollectMode (node w') ≠ CollectMode (node w) →
  GetCollectMode w = Automatic
  ∧ CollectMode (node w') = Manual
  ∧ (GetOutputNode w = None ∨ GetSamplingTransformNode w = None)
  ∧ w' = fallback_to_manual w.
Proof.
  assert (Hadd : ∀ ptr frames,
             CollectMode (node (AddPoint ptr frames w))
             = CollectMode (node w)).
  { intros ptr frames.
    by destruct (AddPoint_node ptr frames w) as [->| ->]. }
  destruct 1 as [ptr frames| | |caller event frames|nodeID|nodeID|nodeID|s];
    intros Hmode.
  - by destruct Hmode.
  - by rewrite RemoveLastPoint_node in Hmode.
  - by rewrite RemoveAllPoints_node in Hmode.
  - destruct (ProcessMRMLNodesEvents_outcome caller event frames w)
      as [Hw|[[text Hw]|[(Ha & Hu & Hw)|(_ & _ & _ & Hw)]]];
      rewrite Hw in Hmode |- *; [done|done| |by rewrite Hadd in Hmode].
    by rewrite fallback_to_manual_node.
  - destruct Hmode. unfold SetAndObserveSamplingTransformNodeID.
    by repeat case_match.
  - destruct Hmode. unfold SetAndObserveAnchorTransformNodeID.
    by repeat case_match.
  - destruct Hmode. unfold SetOutputNodeID. by repeat case_match.
  - by destruct Hmode.
Qed.

(** ** The frame references *)

Lemma same_node_id_true (a b : option string) :
  same_node_id a b = true ↔ ∃ id, a = Some id ∧ b = Some id.
Proof.
  unfold same_node_id. destruct a as [x|], b as [y|]; split;
    try done; try (by intros (? & ? & ?)).
  - intros ->%bool_decide_eq_true. eauto.
  - intros (id & [= ->] & [= ->]). by apply bool_decide_eq_true.
Qed.

Lemma same_node_id_false (id : string) (b : option string) :
  same_node_id (Some id) b = false ↔ b ≠ Some id.
Proof.
  destruct (same_node_id (Some id) b) eqn:E; split; try done.
  - apply same_node_id_true in E as (i & [= <-] & ->). by intros H.
  - intros _ ->. simpl in E. by rewrite bool_decide_true in E.
Qed.

Lemma roles_distinct :
  SAMPLING_TRANSFORM_REFERENCE_ROLE ≠ ANCHOR_TRANSFORM_REFERENCE_ROLE
  ∧ OUTPUT_REFERENCE_ROLE ≠ SAMPLING_TRANSFORM_REFERENCE_ROLE
  ∧ OUTPUT_REFERENCE_ROLE ≠ ANCHOR_TRANSFORM_REFERENCE_ROLE.
Proof. done. Qed.

Lemma reference_after_set (role role' : string) (nodeID : option string)
    (w : World) :
  GetNodeReferenceID role' (SetAndObserveNodeReferenceID role nodeID w)
  = if decide (role = role') then nodeID else GetNodeReferenceID role' w.
Proof.
  unfold GetNodeReferenceID, SetAndObserveNodeReferenceID. simpl.
  destruct nodeID as [id|].
  - rewrite lookup_insert. by destruct (decide (role = role')).
  - rewrite lookup_delete. by destruct (decide (role = role')).
Qed.

Lemma SetAndObserveSamplingTransformNodeID_rejected (w : World)
    (id : string) :
  GetNodeReferenceID ANCHOR_TRANSFORM_REFERENCE_ROLE w = Some id →
  let w' := SetAndObserveSamplingTransformNodeID (Some id) w in
  node w' = node w ∧ scene w' = scene w ∧ invoked w' = invoked w
  ∧ (GetNodeReferenceID SAMPLING_TRANSFORM_REFERENCE_ROLE w ≠ Some id →
     w' = vtkErrorMacro
            "Anchor and sampling transforms cannot be the same." w).
Proof.
  intros Hanchor. unfold SetAndObserveSamplingTransformNodeID.
  rewrite Hanchor.
  destruct (same_node_id (Some id)
              (GetNodeReferenceID SAMPLING_TRANSFORM_REFERENCE_ROLE w))
    eqn:Hcur.
  - apply same_node_id_true in Hcur as (i & [= <-] & Hcur). by repeat split.
  - simpl. rewrite bool_decide_true by done. by repeat split.
Qed.

Lemma SetAndObserveAnchorTransformNodeID_rejected (w : World) (id : string) :
  GetNodeReferenceID SAMPLING_TRANSFORM_REFERENCE_ROLE w = Some id →
  let w' := SetAndObserveAnchorTransformNodeID (Some id) w in
  node w' = node w ∧ scene w' = scene w ∧ invoked w' = invoked w
  ∧ (GetNodeReferenceID ANCHOR_TRANSFORM_REFERENCE_ROLE w ≠ Some id →
     w' = vtkErrorMacro
            "Anchor and sampling transforms cannot be the same." w).
Proof.
  intros Hsampling. unfold SetAndObserveAnchorTransformNodeID.
  rewrite Hsampling.
  destruct (same_node_id (Some id)
              (GetNodeReferenceID ANCHOR_TRANSFORM_REFERENCE_ROLE w))
    eqn:Hcur.
  - apply same_node_id_true in Hcur as (i & [= <-] & Hcur). by repeat split.
  - simpl. rewrite bool_decide_true by done. by repeat split.
Qed.

Lemma NoFrameConflict_same_references (w w' : World) :
  NodeReferenceIDs (node w') = NodeReferenceIDs (node w) →
  NoFrameConflict w → NoFrameConflict w'.
Proof.
  intros Hrefs Hinv id. unfold GetNodeReferenceID. rewrite Hrefs.
  apply Hinv.
Qed.

Lemma SetAndObserveSamplingTransformNodeID_invariant (nodeID : option string)
    (w : World) :
  NoFrameConflict w →
  NoFrameConflict (SetAndObserveSamplingTransformNodeID nodeID w).
Proof.
  intros Hinv. unfold SetAndObserveSamplingTransformNodeID.
  destruct (same_node_id nodeID
              (GetNodeReferenceID SAMPLING_TRANSFORM_REFERENCE_ROLE w));
    [done|].
  destruct (same_node_id nodeID
              (GetNodeReferenceID ANCHOR_TRANSFORM_REFERENCE_ROLE w))
    eqn:Hanchor; [by apply (NoFrameConflict_same_references w)|].
  intros id.
  change (GetNodeReferenceID ?r (InvokeCustomModifiedEvent ?e ?v))
    with (GetNodeReferenceID r v).
  rewrite !reference_after_set.
  rewrite decide_True by done. rewrite decide_False by done.
  intros ->. by apply same_node_id_false.
Qed.

Lemma SetAndObserveAnchorTransformNodeID_invariant (nodeID : option string)
    (w : World) :
  NoFrameConflict w →
  NoFrameConflict (SetAndObserveAnchorTransformNodeID nodeID w).
Proof.
  intros Hinv. unfold SetAndObserveAnchorTransformNodeID.
  destruct (same_node_id nodeID
              (GetNodeReferenceID ANCHOR_TRANSFORM_REFERENCE_ROLE w));
    [done|].
  destruct (same_node_id nodeID
              (GetNodeReferenceID SAMPLING_TRANSFORM_REFERENCE_ROLE w))
    eqn:Hsampling; [by apply (NoFrameConflict_same_references w)|].
  intros id. rewrite !reference_after_set.
  rewrite decide_False by done. rewrite decide_True by done.
  intros Hs ->. by apply same_node_id_false in Hsampling.
Qed.

Lemma SetOutputNodeID_invariant (nodeID : option string) (w : World) :
  NoFrameConflict w → NoFrameConflict (SetOutputNodeID nodeID w).
Proof.
  intros Hinv. unfold SetOutputNodeID.
  destruct (same_node_id nodeID _); [done|].
  intros id. rewrite !reference_after_set.
  rewrite !decide_False by done. apply Hinv.
Qed.

Lemma session_step_references (w w' : World) :
  session_step w w' → NoFrameConflict w → NoFrameConflict w'.
Proof.
  assert (Hadd : ∀ ptr frames,
             NodeReferenceIDs (node (AddPoint ptr frames w))
             = NodeReferenceIDs (node w)).
  { intros ptr frames.
    by destruct (AddPoint_node ptr frames w) as [->| ->]. }
  destruct 1 as [ptr frames| | |caller event frames|nodeID|nodeID|nodeID|s].
  - by apply NoFrameConflict_same_references.
  - apply NoFrameConflict_same_references. by rewrite RemoveLastPoint_node.
  - apply NoFrameConflict_same_references. by rewrite RemoveAllPoints_node.
  - apply NoFrameConflict_same_references.
    destruct (ProcessMRMLNodesEvents_outcome caller event frames w)
      as [->|[[text ->]|[(_ & _ & ->)|(_ & _ & _ & ->)]]];
      [done|done| |done].
    by rewrite fallback_to_manual_node.
  - apply SetAndObserveSamplingTransformNodeID_invariant.
  - apply SetAndObserveAnchorTransformNodeID_invariant.
  - apply SetOutputNodeID_invariant.
  - by apply NoFrameConflict_same_references.
Qed.

Lemma session_steps_references (w w' : World) :
  rtc session_step w w' → NoFrameConflict w → NoFrameConflict w'.
Proof.
  induction 1 as [|w w1 w' Hstep _ IH]; [done|].
  intros Hinv. apply IH. by apply (session_step_references w).
Qed.

Lemma steps_below_max_counter (w w' : World) :
  INT_MIN ≤ LabelCounter (node w) →
  rtc step_below_max w w' →
  LabelCounter (node w) ≤ LabelCounter (node w').
Proof.
  intros Hmin Hsteps. induction Hsteps as [|w w1 w' [Hmax Hstep] _ IH];
    [done|].
  apply session_step_counter_below in Hstep; [|lia].
  etrans; [|apply IH]; lia.
Qed.

(** ** The decimal rendering of the label counter *)

Lemma stream_int_decimal (n : Z) :
  NilZero.int_of_string (stream_int n) = Some (Z.to_int n)
  ∧ Decimal.norm (Z.to_int n) = Z.to_int n
  ∧ Z.of_int (Z.to_int n) = n.
Proof.
  assert (Hnorm : Decimal.norm (Z.to_int n) = Z.to_int n).
  { rewrite <- (DecimalZ.to_of (Z.to_int n)). by rewrite DecimalZ.of_to. }
  split; [|split; [done|apply DecimalZ.of_to]].
  unfold stream_int. apply NilZero.isi.
  - intros H. rewrite H in Hnorm. discriminate.
  - intros H. rewrite H in Hnorm. discriminate.
Qed.

(** * The properties *)

(** ** The distance gate *)

(** C1, as stated, fails: the gate compares the distance it computes in
    [double] arithmetic, which is not the Euclidean distance.  With the
    last point at the origin and the minimum distance [sqrt( 2.0 )], the
    candidate (1, 1, 0) lies closer than the minimum (the square of the
    minimum exceeds 2), yet its computed distance is the minimum and the
    point is stored.  With the minimum distance 5 k and the candidate
    (3 k, 4 k, 0), k = 795739533 / 2^24, the candidate lies at exactly
    the minimum distance, yet its computed distance is smaller and the
    point is rejected. *)
Lemma computed_distance_is_not_Euclidean :
  (ComputeMinimumDistanceFromPreviousPointMm (gate_world (PrimFloat.sqrt 2))
   = PrimFloat.sqrt 2
   ∧ PrimFloat.ltb 0 (PrimFloat.sqrt 2) = true
   ∧ SinkPoints (gate_world (PrimFloat.sqrt 2)) = Some [(0, 0, 0)%float]
   ∧ EuclideanDistanceAtLeast (PrimFloat.sqrt 2)
       (1, 1, 0)%float (0, 0, 0)%float = false
   ∧ SinkPoints
       (AddPointToMarkups (1, 1, 0)%float (gate_world (PrimFloat.sqrt 2)))
     = Some [(0, 0, 0)%float; (1, 1, 0)%float])
  ∧ (ComputeMinimumDistanceFromPreviousPointMm (gate_world side_5k)
     = side_5k
     ∧ PrimFloat.ltb 0 side_5k = true
     ∧ SinkPoints (gate_world side_5k) = Some [(0, 0, 0)%float]
     ∧ EuclideanDistanceIs side_5k
         (side_3k, side_4k, 0%float) (0, 0, 0)%float = true
     ∧ AddPointToMarkups (side_3k, side_4k, 0%float) (gate_world side_5k)
       = gate_world side_5k).
Proof. vm_compute. by repeat split. Qed.

(** C1, amended.  The distance gate, as both appends apply it.  For a
    candidate [p], the last point of the bound sink and the minimum
    distance [m] the append works with: the append stores the candidate
    when [m > 0.0] does not hold ([m] is zero, negative or NaN) or when
    the sink holds no point; otherwise it stores it if and only if the
    distance it computes in [double] arithmetic, the square root of
    [vtkMath::Distance2BetweenPoints] with every operation rounded, is
    not less than [m].  So a candidate whose computed distance equals [m]
    is stored, and a candidate whose computed distance is less leaves the
    world untouched.  The statement is the same for the point-set sink
    ([AddPointToMarkups]) and for the mesh sink ([AddPointToModel]). *)
Theorem distance_gate_inclusive (add : Point3 → World → World) (p : Point3)
    (w : World) (pts : list Point3) :
  (is_Some (SinkFiducials w) ∧ add = AddPointToMarkups)
  ∨ (is_Some (SinkPolyData w) ∧ add = AddPointToModel) →
  SinkPoints w = Some pts →
  let m := ComputeMinimumDistanceFromPreviousPointMm w in
  (PrimFloat.ltb 0 m = false ∨ last pts = None → Appends add p w)
  ∧ (∀ q, PrimFloat.ltb 0 m = true → last pts = Some q →
       (Appends add p w ↔ PrimFloat.ltb (ComputedDistanceMm p q) m = false)
       ∧ (PrimFloat.ltb (ComputedDistanceMm p q) m = true → add p w = w)
       ∧ (PrimFloat.eqb (ComputedDistanceMm p q) m = true →
          Appends add p w)).
Proof.
  intros [[[fids Hsink] ->]|[[opd Hsink] ->]] Hpts m.
  - pose proof (SinkPoints_of_fiducials w fids Hsink) as Hpts'.
    assert (pts = fiducialPosition <$> fids) as -> by congruence.
    apply gate_from_outcome; [done|].
    destruct (AddPointToMarkups_outcome p w fids Hsink)
      as [(Hq & Hw)|(Hc & Hadd & _)]; [by left|by right].
  - pose proof (SinkPoints_of_poly_data w opd Hsink) as Hpts'.
    assert (pts = default [] (Points (default vtkPolyData_New opd))) as ->
      by congruence.
    apply gate_from_outcome; [done|].
    destruct (AddPointToModel_outcome p w opd Hsink)
      as [(Hq & Hw)|(Hc & Hadd & _)]; [by left|by right].
Qed.

(** Scenario C: with the minimum distance 10 and the last point at the
    origin, the candidate (10, 0, 0) has the computed distance 10 and is
    stored. *)
Lemma distance_gate_inclusive_witness :
  Appends AddPointToMarkups (10, 0, 0)%float (markups_world Automatic).
Proof.
  refine (proj2 (proj2 (proj2
    (distance_gate_inclusive AddPointToMarkups (10, 0, 0)%float
       (markups_world Automatic) [(0, 0, 0)%float] _ _)
    (0, 0, 0)%float _ _)) _).
  - left. split; [by eexists|reflexivity].
  - reflexivity.
  - reflexivity.
  - reflexivity.
  - reflexivity.
Defined.

(** ** The topology of the mesh sink *)

(** C2, as stated, fails: on a mesh sink whose geometry has no points but
    still carries a line cell, [RemoveLastPoint] installs an empty
    coordinate array and returns; the line cell stays, so the sink does not
    satisfy the invariant after the operation. *)
Lemma RemoveLast_keeps_stale_cells :
  SinkPoints (mesh_world Manual (Some stale_mesh)) = Some []
  ∧ SinkPolyData (RemoveLastPoint (mesh_world Manual (Some stale_mesh)))
    = Some (Some {| Points := Some []; Verts := None;
                    Lines := Some [[0; 1]]; Polys := None;
                    Strips := None |})
  ∧ ¬ MeshSinkInvariant (RemoveLastPoint (mesh_world Manual (Some stale_mesh))).
Proof.
  split; [reflexivity|]. split; [reflexivity|].
  intros (pd & Hpd & Hinv).
  assert (pd = {| Points := Some []; Verts := None;
                  Lines := Some [[0; 1]]; Polys := None;
                  Strips := None |}) as ->.
  { assert (Hsink : SinkPolyData
                      (RemoveLastPoint (mesh_world Manual (Some stale_mesh)))
                    = Some (Some {| Points := Some []; Verts := None;
                                    Lines := Some [[0; 1]]; Polys := None;
                                    Strips := None |}))
      by reflexivity.
    congruence. }
  by destruct Hinv as [_ _ Hlines _ _].
Qed.

(** C2, amended.  On a mesh sink that carries no triangle strips, and no
    cells while it has no points (a sink without geometry is one), after
    each operation of every finite sequence of appends that the gate lets
    through, RemoveLast and RemoveAll, the cell count equals the point
    count, the vertex cells are one single-point cell per point in index
    order, and there are no line cells, no polygon cells and no triangle
    strips.  RemoveLast on a mesh sink without points installs an empty
    coordinate array and leaves the cell arrays as they were. *)
Theorem mesh_invariant_after_operations :
  (∀ w w', NoStaleSink w → tc mesh_step w w' → MeshSinkInvariant w')
  ∧ (∀ w pd, SinkPolyData w = Some (Some pd) →
             PolyData_GetNumberOfPoints pd = 0 →
             SinkPolyData (RemoveLastPoint w)
             = Some (Some (PolyData_SetPoints [] pd))).
Proof.
  split.
  - apply mesh_steps_invariant.
  - intros w pd Hsink Hn. by apply RemoveLastPoint_empty_mesh.
Qed.

(** Scenario D and an empty sink: from a mesh of three points, RemoveLast
    leaves two points and two vertex cells; RemoveLast on the mesh without
    geometry leaves a geometry without points and without cells. *)
Lemma mesh_invariant_after_operations_witness :
  MeshSinkInvariant
    (RemoveLastPoint (mesh_world Automatic (Some three_point_mesh)))
  ∧ SinkPolyData
      (RemoveLastPoint (mesh_world Automatic (Some three_point_mesh)))
    = Some (Some {| Points := Some [(0, 0, 0)%float; (1, 0, 0)%float];
                    Verts := Some [[0]; [1]];
                    Lines := None; Polys := None; Strips := None |})
  ∧ SinkPolyData
      (RemoveLastPoint (mesh_world Automatic (Some vtkPolyData_New)))
    = Some (Some (PolyData_SetPoints [] vtkPolyData_New)).
Proof.
  split; [|split].
  - apply (proj1 mesh_invariant_after_operations
             (mesh_world Automatic (Some three_point_mesh))).
    + exists (Some three_point_mesh). split; [reflexivity|].
      intros pd [= <-]. split; [reflexivity|]. intros Hn. discriminate Hn.
    + apply tc_once. constructor.
  - reflexivity.
  - apply (proj2 mesh_invariant_after_operations); reflexivity.
Defined.

(** ** The preconditions of AddPoint *)

(** C3, as stated, fails: on a session with neither a sink nor a sampling
    frame, [AddPoint] reports the missing sampling frame, not the missing
    output. *)
Lemma AddPoint_reports_sampling_frame_first :
  GetOutputNode new_world = None
  ∧ GetSamplingTransformNode new_world = None
  ∧ messages (AddPoint ParameterNode identity_frames new_world)
    = [NoSamplingFrame]
  ∧ NoSamplingFrame ≠ NoOutput.
Proof. by repeat split. Qed.

(** C3, amended.  [AddPoint] checks the sampling frame first and the sink
    second: without a sampling frame it reports NoSamplingFrame, whether a
    sink is bound or not, and with a sampling frame but without a sink it
    reports NoOutput.  Whenever it reports anything, the world it leaves
    is the world it found with the one error message added: neither the
    sink nor the session is touched. *)
Theorem AddPoint_precondition_order (frames : FrameProvider) (w : World) :
  (GetSamplingTransformNode w = None →
   AddPoint ParameterNode frames w
   = vtkErrorMacro "No sampling transform node set. Will not add any points."
       w
   ∧ messages (AddPoint ParameterNode frames w)
     = messages w ++ [NoSamplingFrame])
  ∧ (is_Some (GetSamplingTransformNode w) → GetOutputNode w = None →
     AddPoint ParameterNode frames w
     = vtkErrorMacro "No output node set. Will not add any points." w
     ∧ messages (AddPoint ParameterNode frames w) = messages w ++ [NoOutput])
  ∧ (∀ collectPointsNode,
       messages (AddPoint collectPointsNode frames w) ≠ messages w →
       ∃ text, AddPoint collectPointsNode frames w = vtkErrorMacro text w).
Proof.
  split; [|split].
  - intros Hs. unfold AddPoint. by rewrite Hs.
  - intros [s Hs] Ho. unfold AddPoint. by rewrite Hs, Ho.
  - intros ptr Hmsg.
    destruct (AddPoint_outcome ptr frames w)
      as [Herr|[(p & [fids Hsink] & _ & Hw)|(p & [opd Hsink] & _ & Hw)]];
      [done|exfalso; apply Hmsg; simpl in Hw; rewrite Hw..].
    + destruct (AddPointToMarkups_outcome p w fids Hsink)
        as [(_ & ->)|(_ & _ & _ & _ & Hm & _)]; done.
    + destruct (AddPointToModel_outcome p w opd Hsink)
        as [(_ & ->)|(_ & _ & _ & _ & Hm & _)]; done.
Qed.

(** A session with a sink but no sampling frame, one with a sampling
    frame but no sink. *)
Lemma AddPoint_precondition_order_witness :
  messages
    (AddPoint ParameterNode identity_frames
       (SetOutputNodeID (Some "Fiducials")
          (set_scene (scene (markups_world Manual)) new_world)))
  = [NoSamplingFrame]
  ∧ messages
      (AddPoint ParameterNode identity_frames
         (SetAndObserveSamplingTransformNodeID (Some "Stylus")
            (set_scene (scene (markups_world Manual)) new_world)))
    = [NoOutput].
Proof.
  split.
  - exact (proj2 (proj1
      (AddPoint_precondition_order identity_frames
         (SetOutputNodeID (Some "Fiducials")
            (set_scene (scene (markups_world Manual)) new_world)))
      eq_refl)).
  - exact (proj2 (proj1 (proj2
      (AddPoint_precondition_order identity_frames
         (SetAndObserveSamplingTransformNodeID (Some "Stylus")
            (set_scene (scene (markups_world Manual)) new_world))))
      (ex_intro _ "Stylus" eq_refl) eq_refl)).
Defined.

(** ** Requests on a session that is set up *)

Lemma AddPoint_bound (frames : FrameProvider) (w : World)
    (pts : list Point3) :
  is_Some (GetSamplingTransformNode w) →
  SinkPoints w = Some pts →
  ∃ p, ComputePointCoordinates ParameterNode frames (0, 0, 0)%float w
       = (p, true, w)
       ∧ ((is_Some (SinkFiducials w)
           ∧ AddPoint ParameterNode frames w = AddPointToMarkups p w)
          ∨ (is_Some (SinkPolyData w)
             ∧ AddPoint ParameterNode frames w = AddPointToModel p w)).
Proof.
  intros [s Hs] Hpts.
  destruct (ComputePointCoordinates_success frames (0, 0, 0)%float w s Hs)
    as [p Hp].
  exists p. split; [done|].
  unfold AddPoint. rewrite Hs, Hp. simpl.
  unfold SinkPoints, SinkFiducials, SinkPolyData in *.
  destruct (GetOutputNode w) as [o|]; [|done]. simpl.
  destruct (scene w !! o) as [[]|]; try done.
  - left. by split.
  - right. by split.
Qed.

Lemma ungated_append (add : Point3 → World → World) (p : Point3)
    (w : World) (pts : list Point3) :
  (is_Some (SinkFiducials w) ∧ add = AddPointToMarkups)
  ∨ (is_Some (SinkPolyData w) ∧ add = AddPointToModel) →
  SinkPoints w = Some pts →
  PrimFloat.ltb 0 (ComputeMinimumDistanceFromPreviousPointMm w) = false →
  SinkPoints (add p w) = Some (pts ++ [p]).
Proof.
  intros [[[fids Hsink] ->]|[[opd Hsink] ->]] Hpts Hm.
  - pose proof (SinkPoints_of_fiducials w fids Hsink) as Hpts'.
    assert (pts = fiducialPosition <$> fids) as -> by congruence.
    destruct (AddPointToMarkups_outcome p w fids Hsink)
      as [((q & _ & [Hgt _]%TooClose_true) & _)|(_ & Hadd & _)];
      [congruence|done].
  - pose proof (SinkPoints_of_poly_data w opd Hsink) as Hpts'.
    assert (pts = default [] (Points (default vtkPolyData_New opd))) as ->
      by congruence.
    destruct (AddPointToModel_outcome p w opd Hsink)
      as [((q & _ & [Hgt _]%TooClose_true) & _)|(_ & Hadd & _)];
      [congruence|done].
Qed.

Lemma minimum_distance_outside_automatic (w : World) :
  GetCollectMode w ≠ Automatic →
  ComputeMinimumDistanceFromPreviousPointMm w = 0%float.
Proof.
  intros Hmode. unfold ComputeMinimumDistanceFromPreviousPointMm.
  by rewrite bool_decide_false.
Qed.

(** Outside automatic mode the test [m > 0.0] of the gate fails. *)
Lemma gate_open_outside_automatic (w : World) :
  GetCollectMode w ≠ Automatic →
  PrimFloat.ltb 0 (ComputeMinimumDistanceFromPreviousPointMm w) = false.
Proof.
  intros Hmode. by rewrite minimum_distance_outside_automatic.
Qed.

(** ** The label counter *)

(** C4, as stated, fails.  The label counter is an [int]: on a session
    whose counter holds 2147483647, an append to the point set stores the
    label with that number and leaves the counter at -2147483648, which
    is neither one higher nor at least what it was.  And the label goes
    to the point set through [c_str()]: with the label base "P", NUL, "x"
    and the counter 1 the label stored is "P", not the label base
    followed by the number. *)
Lemma label_counter_wraps_around :
  (LabelCounter (node full_counter_world) = 2147483647
   ∧ SinkFiducials
       (AddPointToMarkups (1, 0, 0)%float full_counter_world)
     = Some [mkFiducial "P0" (0, 0, 0)%float;
             mkFiducial "P2147483647" (1, 0, 0)%float]
   ∧ LabelCounter
       (node (AddPointToMarkups (1, 0, 0)%float full_counter_world))
     = -2147483648
   ∧ ¬ (LabelCounter (node full_counter_world)
        ≤ LabelCounter
            (node (AddPointToMarkups (1, 0, 0)%float full_counter_world))))
  ∧ (LabelCounter (node nul_label_world) = 1
     ∧ SinkFiducials (AddPointToMarkups (1, 0, 0)%float nul_label_world)
       = Some [mkFiducial "P0" (0, 0, 0)%float;
               mkFiducial "P" (1, 0, 0)%float]
     ∧ String.append (LabelBase (node nul_label_world)) (stream_int 1)
       ≠ "P").
Proof.
  split; [split; [reflexivity|split; [reflexivity|split; [reflexivity|]]]|].
  - vm_compute. by intros H.
  - split; [reflexivity|]. split; [reflexivity|]. by vm_compute.
Qed.

(** C4, amended.  An append to a point-set sink that goes through stores,
    for a label base that holds no NUL character, the label [LabelBase]
    followed by [LabelCounter] in decimal, and then sets [LabelCounter]
    one higher, unless it holds the largest [int], 2147483647, from which
    it goes to the smallest.  The decimal rendering has no padding: it is
    the normal form of the number and reads back as the number.  An
    append to a point-set sink that does not go through leaves
    [LabelCounter] alone (a rejection leaves the whole world alone), and
    so do every append to a mesh sink, RemoveLast and RemoveAll.  Along
    every sequence of steps of a session, each taken with the counter
    below 2147483647, [LabelCounter] never decreases. *)
Theorem label_counter_advances_by_one :
  (∀ p w fids,
     SinkFiducials w = Some fids → Appends AddPointToMarkups p w →
     (NulFree (LabelBase (node w)) →
      SinkFiducials (AddPointToMarkups p w)
      = Some (fids ++ [mkFiducial
                         (String.append (LabelBase (node w))
                            (stream_int (LabelCounter (node w)))) p]))
     ∧ (INT_MIN ≤ LabelCounter (node w) < INT_MAX →
        LabelCounter (node (AddPointToMarkups p w))
        = LabelCounter (node w) + 1)
     ∧ (LabelCounter (node w) = INT_MAX →
        LabelCounter (node (AddPointToMarkups p w)) = INT_MIN))
  ∧ (∀ n, NilZero.int_of_string (stream_int n) = Some (Z.to_int n)
          ∧ Decimal.norm (Z.to_int n) = Z.to_int n
          ∧ Z.of_int (Z.to_int n) = n)
  ∧ (∀ p w, ¬ Appends AddPointToMarkups p w →
            LabelCounter (node (AddPointToMarkups p w))
            = LabelCounter (node w)
            ∧ (is_Some (SinkFiducials w) → AddPointToMarkups p w = w))
  ∧ (∀ p w, LabelCounter (node (AddPointToModel p w))
            = LabelCounter (node w))
  ∧ (∀ w, LabelCounter (node (RemoveLastPoint w)) = LabelCounter (node w))
  ∧ (∀ w, LabelCounter (node (RemoveAllPoints w)) = LabelCounter (node w))
  ∧ (∀ w w', INT_MIN ≤ LabelCounter (node w) →
             rtc step_below_max w w' →
             LabelCounter (node w) ≤ LabelCounter (node w')).
Proof.
  split; [|split; [|split; [|split; [|split; [|split]]]]].
  - intros p w fids Hsink Happ.
    destruct (AddPointToMarkups_outcome p w fids Hsink)
      as [(_ & Hw)|(_ & _ & Hfids & Hnode & _)].
    + by apply appends_changes_world in Happ.
    + rewrite Hnode. simpl. split; [|split].
      * intros Hbase. by rewrite Hfids, label_c_str.
      * intros Hc. apply int_wrap_id. unfold INT_MIN, INT_MAX in *. lia.
      * by intros ->.
  - apply stream_int_decimal.
  - intros p w Hno. split.
    + destruct (AddPointToMarkups_node p w) as [->|[[text ->]|[Ha _]]]; done.
    + intros [fids Hsink].
      destruct (AddPointToMarkups_outcome p w fids Hsink)
        as [(_ & Hw)|(_ & Hpts & _)]; [done|].
      destruct Hno. exists (fiducialPosition <$> fids).
      split; [by apply SinkPoints_of_fiducials|done].
  - intros p w. by rewrite AddPointToModel_node.
  - intros w. by rewrite RemoveLastPoint_node.
  - intros w. by rewrite RemoveAllPoints_node.
  - intros w w' Hmin Hsteps. by apply steps_below_max_counter.
Qed.

(** Scenario A continued: the session at counter 1 appends "P1" and moves
    to counter 2. *)
Lemma label_counter_advances_by_one_witness :
  SinkFiducials (AddPointToMarkups (1, 0, 0)%float (markups_world Manual))
  = Some [mkFiducial "P0" (0, 0, 0)%float; mkFiducial "P1" (1, 0, 0)%float]
  ∧ LabelCounter
      (node (AddPointToMarkups (1, 0, 0)%float (markups_world Manual)))
    = 2.
Proof.
  destruct (proj1 label_counter_advances_by_one (1, 0, 0)%float
              (markups_world Manual) [mkFiducial "P0" (0, 0, 0)%float])
    as (Hlabel & Hcounter & _).
  - reflexivity.
  - exists [(0, 0, 0)%float]. split; reflexivity.
  - split.
    + apply Hlabel. reflexivity.
    + apply Hcounter. unfold INT_MIN, INT_MAX. simpl. lia.
Defined.

(** ** Manual requests *)

(** C5.  The minimum distance the gate works with is [MinimumDistanceMm]
    in automatic mode and 0 in every other mode.  So outside automatic
    mode a request on a session with a sampling frame and a point-set or
    mesh sink always stores the sampled point, whatever the configured
    minimum distance and whatever the sink holds. *)
Theorem manual_request_never_gated (frames : FrameProvider) (w : World) :
  (GetCollectMode w = Automatic →
   ComputeMinimumDistanceFromPreviousPointMm w = MinimumDistanceMm (node w))
  ∧ (GetCollectMode w ≠ Automatic →
     ComputeMinimumDistanceFromPreviousPointMm w = 0%float)
  ∧ (GetCollectMode w ≠ Automatic →
     is_Some (GetSamplingTransformNode w) →
     ∀ pts, SinkPoints w = Some pts →
     ∃ p, ComputePointCoordinates ParameterNode frames (0, 0, 0)%float w
          = (p, true, w)
          ∧ SinkPoints (AddPoint ParameterNode frames w) = Some (pts ++ [p])).
Proof.
  split; [|split].
  - intros Hmode. unfold ComputeMinimumDistanceFromPreviousPointMm.
    by rewrite bool_decide_true.
  - apply minimum_distance_outside_automatic.
  - intros Hmode Hs pts Hpts.
    destruct (AddPoint_bound frames w pts Hs Hpts) as (p & Hp & Hadd).
    exists p. split; [done|].
    pose proof (gate_open_outside_automatic w Hmode) as Hm.
    destruct Hadd as [[Hsink ->]|[Hsink ->]].
    + by apply (ungated_append AddPointToMarkups); [left|..].
    + by apply (ungated_append AddPointToModel); [right|..].
Qed.

(** A manual request with the stylus at the origin, where the last point
    already is, and a configured minimum distance of 10. *)
Lemma manual_request_never_gated_witness :
  ∃ p, ComputePointCoordinates ParameterNode identity_frames (0, 0, 0)%float
         (markups_world Manual)
       = (p, true, markups_world Manual)
       ∧ SinkPoints (AddPoint ParameterNode identity_frames
                       (markups_world Manual))
         = Some ([(0, 0, 0)%float] ++ [p]).
Proof.
  apply (proj2 (proj2 (manual_request_never_gated identity_frames
                         (markups_world Manual)))).
  - done.
  - by eexists.
  - reflexivity.
Defined.

(** ** The coordinate sampler *)

(** C6.  [ComputePointCoordinates] without a sampling frame reports the
    missing frame, sets [success] to false and hands back the coordinates
    it was given.  With a sampling frame and without an anchor frame it
    returns elements (0,3), (1,3), (2,3) of the sampling frame's
    transform to the world; with both it returns the same elements of the
    sampling frame's transform to the anchor frame.  In both cases
    [success] is true and the world is as before. *)
Theorem ComputePointCoordinates_translation (frames : FrameProvider)
    (out : Point3) (w : World) :
  (GetSamplingTransformNode w = None →
   ComputePointCoordinates ParameterNode frames out w
   = (out, false,
      vtkErrorMacro
        "No sampling transform node set. Cannot compute point coordinates."
        w))
  ∧ (∀ samplingNode,
       GetSamplingTransformNode w = Some samplingNode →
       GetAnchorTransformNode w = None →
       let m := GetMatrixTransformToWorld frames samplingNode in
       ComputePointCoordinates ParameterNode frames out w
       = ((GetElement m 0 3, GetElement m 1 3, GetElement m 2 3), true, w))
  ∧ (∀ samplingNode anchorNode,
       GetSamplingTransformNode w = Some samplingNode →
       GetAnchorTransformNode w = Some anchorNode →
       let m := GetMatrixTransformToNode frames samplingNode anchorNode in
       ComputePointCoordinates ParameterNode frames out w
       = ((GetElement m 0 3, GetElement m 1 3, GetElement m 2 3), true, w)).
Proof.
  unfold ComputePointCoordinates. split; [|split].
  - by intros ->.
  - by intros s -> ->.
  - by intros s a -> ->.
Qed.

(** The stylus relative to the reference body, and relative to the world
    once the anchor reference is cleared. *)
Lemma ComputePointCoordinates_translation_witness :
  ComputePointCoordinates ParameterNode stylus_frames (0, 0, 0)%float
    (mesh_world Manual None)
  = ((10, 0, 0)%float, true, mesh_world Manual None)
  ∧ ComputePointCoordinates ParameterNode stylus_frames (0, 0, 0)%float
      (markups_world Manual)
    = ((20, 0, 0)%float, true, markups_world Manual).
Proof.
  split.
  - exact (proj2 (proj2
      (ComputePointCoordinates_translation stylus_frames (0, 0, 0)%float
         (mesh_world Manual None)))
      "Stylus" "Reference" eq_refl eq_refl).
  - exact (proj1 (proj2
      (ComputePointCoordinates_translation stylus_frames (0, 0, 0)%float
         (markups_world Manual)))
      "Stylus" eq_refl eq_refl).
Defined.

(** ** The frame references *)

(** C7.  An attempt to set the sampling reference to the frame the anchor
    reference holds, or the anchor reference to the frame the sampling
    reference holds, leaves the session, the scene and the invoked events
    as they were; where it is a change of the reference at all, the
    conflict is reported as an error.  The two references, when both set,
    differ on a new session, and every step of a session keeps it so. *)
Theorem frame_references_never_conflict :
  (∀ w id,
     GetNodeReferenceID ANCHOR_TRANSFORM_REFERENCE_ROLE w = Some id →
     let w' := SetAndObserveSamplingTransformNodeID (Some id) w in
     node w' = node w ∧ scene w' = scene w ∧ invoked w' = invoked w
     ∧ (GetNodeReferenceID SAMPLING_TRANSFORM_REFERENCE_ROLE w ≠ Some id →
        w' = vtkErrorMacro
               "Anchor and sampling transforms cannot be the same." w))
  ∧ (∀ w id,
       GetNodeReferenceID SAMPLING_TRANSFORM_REFERENCE_ROLE w = Some id →
       let w' := SetAndObserveAnchorTransformNodeID (Some id) w in
       node w' = node w ∧ scene w' = scene w ∧ invoked w' = invoked w
       ∧ (GetNodeReferenceID ANCHOR_TRANSFORM_REFERENCE_ROLE w ≠ Some id →
          w' = vtkErrorMacro
                 "Anchor and sampling transforms cannot be the same." w))
  ∧ (∀ w, node w = vtkMRMLCollectPointsNode_New → NoFrameConflict w)
  ∧ (∀ w w', NoFrameConflict w → rtc session_step w w' → NoFrameConflict w').
Proof.
  split; [|split; [|split]].
  - apply SetAndObserveSamplingTransformNodeID_rejected.
  - apply SetAndObserveAnchorTransformNodeID_rejected.
  - intros w Hnew id. unfold GetNodeReferenceID. by rewrite Hnew.
  - intros w w' Hinv Hsteps. by apply (session_steps_references w).
Qed.

(** Scenario E: with the sampling frame set to F1, setting the anchor
    frame to F1 is refused and the anchor stays unset. *)
Lemma frame_references_never_conflict_witness :
  GetNodeReferenceID ANCHOR_TRANSFORM_REFERENCE_ROLE
    (SetAndObserveAnchorTransformNodeID (Some "F1")
       (SetAndObserveSamplingTransformNodeID (Some "F1") new_world))
  = None
  ∧ node (SetAndObserveAnchorTransformNodeID (Some "F1")
            (SetAndObserveSamplingTransformNodeID (Some "F1") new_world))
    = node (SetAndObserveSamplingTransformNodeID (Some "F1") new_world)
  ∧ NoFrameConflict
      (SetAndObserveAnchorTransformNodeID (Some "F1")
         (SetAndObserveSamplingTransformNodeID (Some "F1") new_world)).
Proof.
  split; [reflexivity|]. split.
  - exact (proj1 (proj1 (proj2 frame_references_never_conflict)
             (SetAndObserveSamplingTransformNodeID (Some "F1") new_world)
             "F1" eq_refl)).
  - apply (proj2 (proj2 (proj2 frame_references_never_conflict)) new_world).
    + by apply (proj1 (proj2 (proj2 frame_references_never_conflict))).
    + eapply rtc_l; [apply step_SetAndObserveSamplingTransformNodeID|].
      apply rtc_once. apply step_SetAndObserveAnchorTransformNodeID.
Defined.

(** ** The frame-changed notification *)

(** C8.  On the notification that the sampling frame changed,
    [ProcessMRMLNodesEvents] leaves the world as it is outside automatic
    mode.  In automatic mode with the sink or the sampling frame unbound
    it warns and sets the mode to Manual: the scene is untouched and the
    one message added is a warning.  In automatic mode with both bound it
    is [AddPoint].  No step of a session changes the collect mode except
    this fallback. *)
Theorem frame_changed_notification (frames : FrameProvider) (w : World) :
  (GetCollectMode w ≠ Automatic →
   ProcessMRMLNodesEvents ParameterNode InputDataModifiedEvent frames w = w)
  ∧ (GetCollectMode w = Automatic →
     GetOutputNode w = None ∨ GetSamplingTransformNode w = None →
     let w' :=
       ProcessMRMLNodesEvents ParameterNode InputDataModifiedEvent frames w in
     w' = fallback_to_manual w
     ∧ GetCollectMode w' = Manual
     ∧ scene w' = scene w
     ∧ LabelCounter (node w') = LabelCounter (node w)
     ∧ ∃ text, messages w' = messages w ++ [WarningMessage text])
  ∧ (GetCollectMode w = Automatic →
     is_Some (GetOutputNode w) → is_Some (GetSamplingTransformNode w) →
     ProcessMRMLNodesEvents ParameterNode InputDataModifiedEvent frames w
     = AddPoint ParameterNode frames w)
  ∧ (∀ w', session_step w w' →
           CollectMode (node w') ≠ CollectMode (node w) →
           GetCollectMode w = Automatic
           ∧ CollectMode (node w') = Manual
           ∧ (GetOutputNode w = None ∨ GetSamplingTransformNode w = None)
           ∧ w' = fallback_to_manual w).
Proof.
  split; [|split; [|split]].
  - intros Hmode. unfold ProcessMRMLNodesEvents.
    by rewrite bool_decide_false.
  - intros Hmode Hunbound.
    assert (Hfall : ProcessMRMLNodesEvents ParameterNode
                      InputDataModifiedEvent frames w
                    = fallback_to_manual w).
    { unfold ProcessMRMLNodesEvents. rewrite bool_decide_true by done.
      destruct Hunbound as [-> | ->]; [done|].
      by destruct (GetOutputNode w). }
    intros w'. subst w'. rewrite Hfall.
    destruct (fallback_to_manual_frame w) as [Hscene Hmessages].
    split; [done|]. unfold GetCollectMode.
    rewrite fallback_to_manual_node, Hscene, Hmessages.
    repeat split. by eexists.
  - intros Hmode [o Ho] [s Hs]. unfold ProcessMRMLNodesEvents.
    by rewrite bool_decide_true, Ho, Hs.
  - apply session_step_mode.
Qed.

(** Scenario F: automatic mode, no output bound, the notification fires. *)
Lemma frame_changed_notification_witness :
  GetCollectMode
    (ProcessMRMLNodesEvents ParameterNode InputDataModifiedEvent
       identity_frames (SetCollectMode Automatic new_world))
  = Manual
  ∧ scene
      (ProcessMRMLNodesEvents ParameterNode InputDataModifiedEvent
         identity_frames (SetCollectMode Automatic new_world))
    = scene (SetCollectMode Automatic new_world).
Proof.
  destruct (proj1 (proj2
    (frame_changed_notification identity_frames
       (SetCollectMode Automatic new_world)))
    eq_refl (or_introl eq_refl)) as (_ & Hmode & Hscene & _).
  by split.
Defined.

(** ** The deprecated accessors *)

Lemma GetProbeTransformNode_same (w : World) :
  fst (GetProbeTransformNode w) = GetSamplingTransformNode w
  ∧ node (snd (GetProbeTransformNode w)) = node w
  ∧ scene (snd (GetProbeTransformNode w)) = scene w.
Proof. done. Qed.

(** C9.  [SetAndObserveProbeTransformNodeID] calls itself, not
    [SetAndObserveSamplingTransformNodeID]: however many nested calls are
    allowed, none of them returns, for every argument and every world. *)
Theorem SetAndObserveProbeTransformNodeID_never_returns (fuel : nat)
    (nodeID : option string) (w : World) :
  SetAndObserveProbeTransformNodeID fuel nodeID w = None.
Proof.
  revert w. induction fuel as [|fuel IH]; intros w; simpl; [done|].
  apply IH.
Qed.

(** ** The number of points in the output *)

(** C10.  [GetNumberOfPointsInOutput] always returns a number and leaves
    the session, the scene and the invoked events as they were: 0 without
    a bound sink, 0 for a mesh sink without geometry, the number of
    stored points for a point-set or mesh sink, and 0 with the error
    about the unsupported type for any other output. *)
Theorem GetNumberOfPointsInOutput_total (w : World) :
  let n := fst (GetNumberOfPointsInOutput w) in
  let w' := snd (GetNumberOfPointsInOutput w) in
  (node w' = node w ∧ scene w' = scene w ∧ invoked w' = invoked w)
  ∧ (GetOutputNode w = None → n = 0 ∧ w' = w)
  ∧ (SinkPolyData w = Some None → n = 0 ∧ w' = w)
  ∧ (∀ pts, SinkPoints w = Some pts → n = Z.of_nat (length pts) ∧ w' = w)
  ∧ (is_Some (GetOutputNode w) → SinkPoints w = None →
     n = 0
     ∧ w' = vtkErrorMacro "Unsupported node type in output. Returning 0." w).
Proof.
  unfold GetNumberOfPointsInOutput, SinkPolyData, SinkPoints,
    SafeDownCast_ModelNode.
  destruct (GetOutputNode w) as [o|]; simpl.
  - destruct (scene w !! o) as [[| fids | [pd|] |]|]; simpl;
      (split; [done|]); (split; [done|]); (split; [done|]);
      (split; [|try done; by intros [? ?]]); try done.
    + intros pts [= <-]. split; [|done].
      unfold Markups.GetNumberOfFiducials. by rewrite length_fmap.
    + intros pts [= <-]. split; [|done].
      unfold PolyData_GetNumberOfPoints, PointArray.GetNumberOfPoints.
      by destruct (Points pd).
    + intros pts Hpts. by simplify_eq.
  - repeat split; try done.
Qed.

Lemma GetNumberOfPointsInOutput_total_witness :
  fst (GetNumberOfPointsInOutput
         (mesh_world Manual (Some three_point_mesh))) = 3
  ∧ snd (GetNumberOfPointsInOutput
           (mesh_world Manual (Some three_point_mesh)))
    = mesh_world Manual (Some three_point_mesh).
Proof.
  exact (proj1 (proj2 (proj2 (proj2
    (GetNumberOfPointsInOutput_total
       (mesh_world Manual (Some three_point_mesh)))))) three_points eq_refl).
Defined.

(** * More of the code *)

(** ** The names of the collect modes *)

Lemma GetCollectModeFromString_cases (name : string) :
  (name = "manual" ∧ GetCollectModeFromString (Some name) = Manual)
  ∨ (name = "automatic" ∧ GetCollectModeFromString (Some name) = Automatic)
  ∨ (name ≠ "manual" ∧ name ≠ "automatic"
     ∧ GetCollectModeFromString (Some name) = -1).
Proof.
  unfold GetCollectModeFromString. simpl.
  change (GetCollectModeAsString 0) with "manual".
  change (GetCollectModeAsString (0 + 1)) with "automatic".
  destruct (decide (name = "manual")) as [->|Hm]; [by left|].
  destruct (decide (name = "automatic")) as [->|Ha]; [right; by left|].
  right. right. by rewrite !bool_decide_false.
Qed.

(** X1.  The names of the collect modes round-trip: the name of a mode
    reads back as that mode, a name that reads back as a mode is the name
    of that mode, and every other name, the null pointer and the empty
    name that stands for an invalid mode read back as -1. *)
Theorem collect_mode_names_round_trip :
  (∀ m, 0 ≤ m < CollectMode_Last →
        GetCollectModeFromString (Some (GetCollectModeAsString m)) = m)
  ∧ (∀ name,
       GetCollectModeFromString name = -1
       ∨ (0 ≤ GetCollectModeFromString name < CollectMode_Last
          ∧ name = Some (GetCollectModeAsString
                           (GetCollectModeFromString name))))
  ∧ (∀ m, ¬ (0 ≤ m < CollectMode_Last) →
          GetCollectModeAsString m = ""
          ∧ GetCollectModeFromString (Some (GetCollectModeAsString m)) = -1)
  ∧ GetCollectModeFromString None = -1.
Proof.
  unfold CollectMode_Last. split; [|split; [|split]].
  - intros m Hm.
    assert (m = 0 ∨ m = 1) as [-> | ->] by lia; reflexivity.
  - intros [name|]; [|by left].
    destruct (GetCollectModeFromString_cases name)
      as [[-> Hr]|[[-> Hr]|(_ & _ & Hr)]];
      [right|right|by left]; rewrite Hr; by split.
  - intros m Hm.
    assert (Hname : GetCollectModeAsString m = "").
    { unfold GetCollectModeAsString, Manual, Automatic.
      rewrite !bool_decide_false by lia. done. }
    by rewrite Hname.
  - done.
Qed.

(** ** Restoring a session from its attributes *)

Lemma ReadXMLAttributes_loop_app (x : XMLCollaborators)
    (atts : list (string * string)) (attName attValue : string) (w : World) :
  ReadXMLAttributes_loop x (atts ++ [(attName, attValue)]) w
  = ReadXMLAttribute x attName attValue (ReadXMLAttributes_loop x atts w).
Proof.
  revert w. induction atts as [|[n v] atts IH]; intros w; simpl; [done|].
  apply IH.
Qed.

(** The mode an attribute value stands for, as the loop computes it. *)
Lemma ReadXMLAttribute_mode (x : XMLCollaborators) (attValue : string)
    (w : World) :
  let w' := ReadXMLAttribute x "CollectMode" attValue w in
  (attValue = "manual" ∧ CollectMode (node w') = Manual
   ∧ messages w' = messages w)
  ∨ (attValue = "automatic" ∧ CollectMode (node w') = Automatic
     ∧ messages w' = messages w)
  ∨ (attValue ≠ "manual" ∧ attValue ≠ "automatic"
     ∧ CollectMode (node w') = Manual
     ∧ messages w'
       = messages w
         ++ [WarningMessage
               (String.append
                  "Unrecognized collect mode read from MRML node: "
                  (String.append attValue ". Setting to manual."))]).
Proof.
  intros w'. subst w'. unfold ReadXMLAttribute.
  rewrite !(bool_decide_false ("CollectMode" = _)) by done.
  rewrite bool_decide_true by done. cbv zeta.
  destruct (GetCollectModeFromString_cases attValue)
    as [[Hv Hr]|[[Hv Hr]|(Hm & Ha & Hr)]]; rewrite Hr.
  - by left.
  - right. by left.
  - right. right. by repeat split.
Qed.

Lemma ReadXMLAttribute_other (x : XMLCollaborators)
    (attName attValue : string) (w : World) :
  attName ≠ "CollectMode" →
  CollectMode (node (ReadXMLAttribute x attName attValue w))
  = CollectMode (node w)
  ∧ messages (ReadXMLAttribute x attName attValue w) = messages w.
Proof.
  intros Hname. unfold ReadXMLAttribute.
  repeat case_bool_decide; done.
Qed.

Lemma ReadXMLAttribute_frame (x : XMLCollaborators)
    (attName attValue : string) (w : World) :
  let w' := ReadXMLAttribute x attName attValue w in
  NodeReferenceIDs (node w') = NodeReferenceIDs (node w)
  ∧ scene w' = scene w
  ∧ invoked w' = invoked w
  ∧ ∃ warnings, messages w' = messages w ++ (WarningMessage <$> warnings).
Proof.
  unfold ReadXMLAttribute.
  repeat case_bool_decide; simpl; repeat split;
    first [exists []; simpl; by rewrite app_nil_r | by eexists [_]].
Qed.

Lemma last_attribute_app (name attName attValue : string)
    (atts : list (string * string)) :
  last_attribute name (atts ++ [(attName, attValue)])
  = if decide (attName = name) then Some attValue
    else last_attribute name atts.
Proof.
  unfold last_attribute. rewrite filter_app.
  destruct (decide (attName = name)) as [Heq|Hne].
  - rewrite (filter_cons_True (λ att : string * string, att.1 = name)
               (attName, attValue) []) by done.
    by rewrite filter_nil, last_snoc.
  - rewrite (filter_cons_False (λ att : string * string, att.1 = name)
               (attName, attValue) []) by done.
    by rewrite filter_nil, app_nil_r.
Qed.

Lemma ReadXMLAttributes_loop_mode (x : XMLCollaborators)
    (atts : list (string * string)) (w : World) (value : string) :
  last_attribute "CollectMode" atts = Some value →
  let w' := ReadXMLAttributes_loop x atts w in
  (value = "manual" ∧ CollectMode (node w') = Manual)
  ∨ (value = "automatic" ∧ CollectMode (node w') = Automatic)
  ∨ (value ≠ "manual" ∧ value ≠ "automatic"
     ∧ CollectMode (node w') = Manual
     ∧ last (messages w')
       = Some (WarningMessage
                 (String.append
                    "Unrecognized collect mode read from MRML node: "
                    (String.append value ". Setting to manual.")))).
Proof.
  induction atts as [|[n v] atts IH] using rev_ind; [done|].
  rewrite last_attribute_app, ReadXMLAttributes_loop_app.
  destruct (decide (n = "CollectMode")) as [->|Hn].
  - intros [= ->].
    destruct (ReadXMLAttribute_mode x value (ReadXMLAttributes_loop x atts w))
      as [(Hv & Hm & _)|[(Hv & Hm & _)|(Hv1 & Hv2 & Hm & Hmsg)]].
    + by left.
    + right. by left.
    + right. right. simpl. rewrite Hmsg, last_snoc. by repeat split.
  - intros Hlast.
    destruct (ReadXMLAttribute_other x n v (ReadXMLAttributes_loop x atts w)
                Hn) as [Hm Hmsg].
    simpl. rewrite Hm, Hmsg. by apply IH.
Qed.

(** X2.  Restoring the collect mode.  The last CollectMode attribute
    decides: the name of Manual or of Automatic, as [WriteXML] writes it
    through [GetCollectModeAsString], restores that mode; any other value
    (the empty name written for an invalid mode is one) restores Manual,
    and the last message is then the warning that names the value.  With
    a CollectMode attribute the restored mode is always Manual or
    Automatic. *)
Theorem ReadXMLAttributes_restores_collect_mode (x : XMLCollaborators)
    (atts : list (string * string)) (w : World) (value : string) :
  last_attribute "CollectMode" atts = Some value →
  let w' := ReadXMLAttributes x atts w in
  (∀ m, 0 ≤ m < CollectMode_Last → value = GetCollectModeAsString m →
        CollectMode (node w') = m)
  ∧ (value ≠ "manual" → value ≠ "automatic" →
     CollectMode (node w') = Manual
     ∧ last (messages w')
       = Some (WarningMessage
                 (String.append
                    "Unrecognized collect mode read from MRML node: "
                    (String.append value ". Setting to manual."))))
  ∧ (CollectMode (node w') = Manual ∨ CollectMode (node w') = Automatic).
Proof.
  intros Hlast w'.
  pose proof (ReadXMLAttributes_loop_mode x atts
                (Superclass_ReadXMLAttributes x atts w) value Hlast) as Hloop.
  change (CollectMode (node w'))
    with (CollectMode
            (node (ReadXMLAttributes_loop x atts
                     (Superclass_ReadXMLAttributes x atts w)))).
  change (messages w')
    with (messages (ReadXMLAttributes_loop x atts
                      (Superclass_ReadXMLAttributes x atts w))).
  simpl in Hloop.
  split; [|split].
  - intros m Hm ->. unfold CollectMode_Last in Hm.
    assert (m = 0 ∨ m = 1) as [-> | ->] by lia;
      destruct Hloop as [[Hv Hr]|[[Hv Hr]|(Hv1 & Hv2 & _)]]; done.
  - intros Hv1 Hv2.
    destruct Hloop as [[Hv Hr]|[[Hv Hr]|(_ & _ & Hr & Hmsg)]]; done.
  - destruct Hloop as [[Hv Hr]|[[Hv Hr]|(_ & _ & Hr & _)]]; auto.
Qed.

(** A saved automatic session is restored as automatic, whatever comes
    before and after the attribute. *)
Lemma ReadXMLAttributes_restores_collect_mode_witness :
  CollectMode
    (node (ReadXMLAttributes idle_collaborators
             [("CollectMode", "bogus"); ("LabelBase", "Q");
              ("CollectMode", "automatic"); ("id", "vtkMRMLCollectPointsNode1")]
             new_world))
  = Automatic.
Proof.
  exact (proj1
    (ReadXMLAttributes_restores_collect_mode idle_collaborators
       [("CollectMode", "bogus"); ("LabelBase", "Q");
        ("CollectMode", "automatic"); ("id", "vtkMRMLCollectPointsNode1")]
       new_world "automatic" eq_refl)
    Automatic (conj (Z.le_0_1) eq_refl) eq_refl).
Defined.

Lemma ReadXMLAttributes_loop_frame (x : XMLCollaborators)
    (atts : list (string * string)) (w : World) :
  let w' := ReadXMLAttributes_loop x atts w in
  NodeReferenceIDs (node w') = NodeReferenceIDs (node w)
  ∧ scene w' = scene w
  ∧ invoked w' = invoked w
  ∧ ∃ warnings, messages w' = messages w ++ (WarningMessage <$> warnings).
Proof.
  induction atts as [|[n v] atts IH] using rev_ind; simpl.
  - repeat split. exists []. simpl. by rewrite app_nil_r.
  - rewrite ReadXMLAttributes_loop_app.
    destruct IH as (Hrefs & Hscene & Hinv & ws & Hmsg).
    destruct (ReadXMLAttribute_frame x n v (ReadXMLAttributes_loop x atts w))
      as (Hrefs' & Hscene' & Hinv' & ws' & Hmsg').
    simpl in *. rewrite Hrefs', Hscene', Hinv', Hmsg', Hrefs, Hscene, Hinv, Hmsg.
    repeat split. exists (ws ++ ws'). by rewrite fmap_app, app_assoc.
Qed.

Lemma ReadXMLAttributes_loop_unknown (x : XMLCollaborators)
    (atts : list (string * string)) (w : World) :
  Forall (λ att, att.1 ≠ "LabelBase" ∧ att.1 ≠ "LabelCounter"
                 ∧ att.1 ≠ "MinimumDistanceMm" ∧ att.1 ≠ "CollectMode")
    atts →
  ReadXMLAttributes_loop x atts w = w.
Proof.
  intros Hall. revert w.
  induction Hall as [|[n v] atts (H1 & H2 & H3 & H4) _ IH]; intros w; simpl;
    [done|].
  simpl in *. unfold ReadXMLAttribute.
  rewrite !bool_decide_false by done. apply IH.
Qed.

Lemma ReadXMLAttributes_loop_label_base (x : XMLCollaborators)
    (atts : list (string * string)) (w : World) :
  LabelBase (node (ReadXMLAttributes_loop x atts w))
  = default (LabelBase (node w)) (last_attribute "LabelBase" atts).
Proof.
  induction atts as [|[n v] atts IH] using rev_ind; [done|].
  rewrite last_attribute_app, ReadXMLAttributes_loop_app.
  destruct (decide (n = "LabelBase")) as [->|Hn].
  - unfold ReadXMLAttribute. by rewrite bool_decide_true.
  - rewrite <- IH. unfold ReadXMLAttribute.
    rewrite bool_decide_false by done.
    by repeat case_bool_decide.
Qed.

Lemma ReadXMLAttributes_loop_no_mode (x : XMLCollaborators)
    (atts : list (string * string)) (w : World) :
  last_attribute "CollectMode" atts = None →
  CollectMode (node (ReadXMLAttributes_loop x atts w)) = CollectMode (node w).
Proof.
  induction atts as [|[n v] atts IH] using rev_ind; [done|].
  rewrite last_attribute_app, ReadXMLAttributes_loop_app.
  destruct (decide (n = "CollectMode")) as [->|Hn]; [done|].
  intros Hlast.
  destruct (ReadXMLAttribute_other x n v (ReadXMLAttributes_loop x atts w) Hn)
    as [-> _].
  by apply IH.
Qed.

(** X3.  What restoring from attributes leaves alone.  After the
    superclass has done its part, the loop over the attributes changes
    neither the node references nor the scene, reports nothing but
    warnings and invokes nothing; the one event of the whole restore is
    the final [ModifiedEvent].  Attributes with other names than the four
    of the class are skipped.  The label base is the value of the last
    LabelBase attribute, and without a LabelBase or a CollectMode
    attribute that field is as the superclass left it. *)
Theorem ReadXMLAttributes_frame (x : XMLCollaborators)
    (atts : list (string * string)) (w : World) :
  let w0 := Superclass_ReadXMLAttributes x atts w in
  let w' := ReadXMLAttributes x atts w in
  NodeReferenceIDs (node w') = NodeReferenceIDs (node w0)
  ∧ scene w' = scene w0
  ∧ invoked w' = invoked w0 ++ [ModifiedEvent]
  ∧ (∃ warnings, messages w' = messages w0 ++ (WarningMessage <$> warnings))
  ∧ (Forall (λ att, att.1 ≠ "LabelBase" ∧ att.1 ≠ "LabelCounter"
                    ∧ att.1 ≠ "MinimumDistanceMm" ∧ att.1 ≠ "CollectMode")
       atts →
     w' = InvokeCustomModifiedEvent ModifiedEvent w0)
  ∧ LabelBase (node w')
    = default (LabelBase (node w0)) (last_attribute "LabelBase" atts)
  ∧ (last_attribute "CollectMode" atts = None →
     CollectMode (node w') = CollectMode (node w0)).
Proof.
  intros w0 w'. subst w'. unfold ReadXMLAttributes. fold w0.
  destruct (ReadXMLAttributes_loop_frame x atts w0)
    as (Hrefs & Hscene & Hinv & Hmsg).
  simpl in *. rewrite Hinv.
  split; [done|]. split; [done|]. split; [done|]. split; [done|].
  split; [|split].
  - intros Hall. by rewrite ReadXMLAttributes_loop_unknown.
  - apply ReadXMLAttributes_loop_label_base.
  - apply ReadXMLAttributes_loop_no_mode.
Qed.

(** ** Removing points *)

Lemma delete_last_take {A} (l : list A) :
  delete (Z.to_nat (Z.of_nat (length l) - 1)) l = take (length l - 1) l.
Proof.
  replace (Z.to_nat (Z.of_nat (length l) - 1)) with (length l - 1)%nat by lia.
  induction l as [|a l IH]; [done|].
  destruct l as [|b l]; [done|].
  replace (length (a :: b :: l) - 1)%nat with (S (length (b :: l) - 1))
    by (simpl; lia).
  simpl in *. by rewrite IH.
Qed.

Lemma no_fiducials_after_store_poly_data (w : World) (id : string)
    (pd : vtkPolyData) :
  GetOutputNode w = Some id →
  SinkFiducials (store_poly_data id pd w) = None.
Proof.
  intros Hout.
  destruct (output_after_store w (store_poly_data id pd w) id
              (ModelNode (Some pd)) Hout eq_refl eq_refl) as [Hout' Hnode'].
  unfold SinkFiducials, SafeDownCast_MarkupsFiducialNode.
  by rewrite Hout', Hnode'.
Qed.

Lemma sink_is_point_set_or_mesh (w : World) (pts : list Point3) :
  SinkPoints w = Some pts →
  is_Some (SinkFiducials w)
  ∨ (SinkFiducials w = None ∧ is_Some (SinkPolyData w)).
Proof.
  unfold SinkPoints, SinkFiducials, SinkPolyData.
  destruct (GetOutputNode w) as [o|]; [|done]. simpl.
  destruct (scene w !! o) as [[]|]; try done.
  - left. by eexists.
  - right. split; [done|]. by eexists.
Qed.

(** [RemoveLastPoint] on a world with a point-set or mesh sink. *)
Lemma RemoveLastPoint_sink (w : World) (pts : list Point3) :
  SinkPoints w = Some pts →
  SinkPoints (RemoveLastPoint w) = Some (take (length pts - 1) pts)
  ∧ SinkFiducials (RemoveLastPoint w)
    = (λ fids, take (length fids - 1) fids) <$> SinkFiducials w
  ∧ messages (RemoveLastPoint w) = messages w
  ∧ invoked (RemoveLastPoint w) = invoked w.
Proof.
  intros Hpts.
  destruct (sink_is_point_set_or_mesh w pts Hpts)
    as [[fids Hfids]|[Hnone [opd Hsink]]].
  - pose proof Hfids as [id Hid]%SinkFiducials_Some.
    destruct (SafeDownCast_MarkupsFiducialNode_Some _ _ _ _ Hid)
      as [Hout Hnode].
    pose proof (SinkPoints_of_fiducials w fids Hfids) as Hpts'.
    assert (pts = fiducialPosition <$> fids) as -> by congruence.
    rewrite length_fmap, <- fmap_take.
    unfold RemoveLastPoint. rewrite Hout, Hnode.
    unfold Markups.GetNumberOfFiducials, Markups.RemoveMarkup.
    case_bool_decide as Hn.
    + assert (fids = []) as -> by (destruct fids; [done|simpl in Hn; lia]).
      simpl. by rewrite Hpts, Hfids.
    + rewrite delete_last_take, Hfids.
      destruct (sink_after_store_markups w id
                  (take (length fids - 1) fids) Hout) as [Hp Hf].
      split; [exact Hp|]. split; [exact Hf|done].
  - pose proof Hsink as [id Hid]%SinkPolyData_Some.
    destruct (SafeDownCast_ModelNode_Some _ _ _ _ Hid) as [Hout Hnode].
    pose proof (SinkPoints_of_poly_data w opd Hsink) as Hpts'.
    assert (pts = default [] (Points (default vtkPolyData_New opd))) as ->
      by congruence.
    rewrite (RemoveLastPoint_mesh w id opd Hid), Hnone.
    split; [|split; [|done]].
    + rewrite (proj1 (sink_after_store_poly_data w id _ Hout)).
      case_bool_decide as Hempty; simpl; [|done].
      by rewrite Hempty.
    + by apply no_fiducials_after_store_poly_data.
Qed.

Lemma removal_without_sink (w : World) :
  SinkPoints w = None →
  SinkFiducials w = None
  ∧ ((GetOutputNode w = None
      ∧ RemoveLastPoint w
        = vtkErrorMacro "No output node set. Will not remove any points." w
      ∧ RemoveAllPoints w
        = vtkErrorMacro "No output node set. Will not remove any points." w)
     ∨ (is_Some (GetOutputNode w)
        ∧ RemoveLastPoint w
          = vtkErrorMacro
              "Could not recognize the type of output node. Will not remove any points."
              w
        ∧ RemoveAllPoints w
          = vtkErrorMacro
              "Could not recognize the type of output node. Will not remove any points."
              w)).
Proof.
  unfold SinkPoints, SinkFiducials, RemoveLastPoint, RemoveAllPoints.
  destruct (GetOutputNode w) as [o|]; simpl; [|intros _; split; [done|by left]].
  destruct (scene w !! o) as [[| |[]|]|]; try done;
    intros _; (split; [done|right; split; [by eexists|done]]).
Qed.

Lemma RemoveAllPoints_sink (w : World) (pts : list Point3) :
  SinkPoints w = Some pts →
  SinkPoints (RemoveAllPoints w) = Some []
  ∧ SinkFiducials (RemoveAllPoints w) = (λ _, []) <$> SinkFiducials w
  ∧ SinkPolyData (RemoveAllPoints w)
    = (λ _, Some vtkPolyData_New) <$> SinkPolyData w
  ∧ messages (RemoveAllPoints w) = messages w
  ∧ invoked (RemoveAllPoints w) = invoked w.
Proof.
  intros Hpts.
  destruct (sink_is_point_set_or_mesh w pts Hpts)
    as [[fids Hfids]|[Hnone [opd Hsink]]].
  - pose proof Hfids as [id Hid]%SinkFiducials_Some.
    destruct (SafeDownCast_MarkupsFiducialNode_Some _ _ _ _ Hid)
      as [Hout Hnode].
    unfold RemoveAllPoints. rewrite Hout, Hnode, Hfids.
    unfold Markups.RemoveAllMarkups.
    destruct (sink_after_store_markups w id []
                Hout) as [Hp Hf].
    split; [exact Hp|]. split; [exact Hf|]. split; [|done].
    destruct (output_after_store w (store_fiducials id [] w) id
                (MarkupsFiducialNode []) Hout eq_refl eq_refl)
      as [Hout' Hnode'].
    unfold SinkPolyData, SafeDownCast_ModelNode.
    by rewrite Hout', Hnode', Hout, Hnode.
  - pose proof Hsink as [id Hid]%SinkPolyData_Some.
    destruct (SafeDownCast_ModelNode_Some _ _ _ _ Hid) as [Hout Hnode].
    rewrite (RemoveAllPoints_mesh w id opd Hid), Hnone, Hsink.
    destruct (sink_after_store_poly_data w id vtkPolyData_New Hout)
      as [Hp Hpd].
    split; [exact Hp|]. split; [|split; [exact Hpd|done]].
    by apply no_fiducials_after_store_poly_data.
Qed.

(** X4.  [RemoveLastPoint] drops exactly the last point of the bound sink
    and keeps the others in order, a point set with the labels they had;
    on an empty sink it reports nothing.  It never touches the session.
    Without a bound output, or with an output that is neither a point set
    nor a mesh, it reports the error and does nothing else. *)
Theorem RemoveLastPoint_drops_last (w : World) :
  SinkPoints (RemoveLastPoint w)
  = (λ pts, take (length pts - 1) pts) <$> SinkPoints w
  ∧ SinkFiducials (RemoveLastPoint w)
    = (λ fids, take (length fids - 1) fids) <$> SinkFiducials w
  ∧ node (RemoveLastPoint w) = node w
  ∧ invoked (RemoveLastPoint w) = invoked w
  ∧ (is_Some (SinkPoints w) → messages (RemoveLastPoint w) = messages w)
  ∧ (GetOutputNode w = None →
     RemoveLastPoint w
     = vtkErrorMacro "No output node set. Will not remove any points." w)
  ∧ (is_Some (GetOutputNode w) → SinkPoints w = None →
     RemoveLastPoint w
     = vtkErrorMacro
         "Could not recognize the type of output node. Will not remove any points."
         w).
Proof.
  destruct (SinkPoints w) as [pts|] eqn:Hpts.
  - destruct (RemoveLastPoint_sink w pts Hpts) as (Hp & Hf & Hm & Hi).
    repeat split; try done.
    + apply RemoveLastPoint_node.
    + intros Hout. unfold SinkPoints in Hpts. by rewrite Hout in Hpts.
  - destruct (removal_without_sink w Hpts)
      as [Hf [(Hout & Hw & _)|([o Hout] & Hw & _)]]; rewrite Hw;
      (split; [exact Hpts|]); (split; [by rewrite Hf|]);
      repeat split; try done.
    + rewrite Hout. by intros [? ?].
    + by rewrite Hout.
Qed.

(** X5.  [RemoveAllPoints] leaves the bound sink without points: a point
    set without fiducials, a mesh with a new geometry, whatever it held.
    It never touches the session.  Without a bound output, or with an
    output that is neither a point set nor a mesh, it reports the error
    and does nothing else. *)
Theorem RemoveAllPoints_empties (w : World) :
  SinkPoints (RemoveAllPoints w) = (λ _, []) <$> SinkPoints w
  ∧ SinkFiducials (RemoveAllPoints w) = (λ _, []) <$> SinkFiducials w
  ∧ SinkPolyData (RemoveAllPoints w)
    = (λ _, Some vtkPolyData_New) <$> SinkPolyData w
  ∧ node (RemoveAllPoints w) = node w
  ∧ invoked (RemoveAllPoints w) = invoked w
  ∧ (is_Some (SinkPoints w) → messages (RemoveAllPoints w) = messages w)
  ∧ (GetOutputNode w = None →
     RemoveAllPoints w
     = vtkErrorMacro "No output node set. Will not remove any points." w)
  ∧ (is_Some (GetOutputNode w) → SinkPoints w = None →
     RemoveAllPoints w
     = vtkErrorMacro
         "Could not recognize the type of output node. Will not remove any points."
         w).
Proof.
  destruct (SinkPoints w) as [pts|] eqn:Hpts.
  - destruct (RemoveAllPoints_sink w pts Hpts) as (Hp & Hf & Hpd & Hm & Hi).
    repeat split; try done.
    + apply RemoveAllPoints_node.
    + intros Hout. unfold SinkPoints in Hpts. by rewrite Hout in Hpts.
  - assert (Hnopd : SinkPolyData w = None).
    { unfold SinkPoints, SinkPolyData, SafeDownCast_ModelNode in *.
      destruct (GetOutputNode w) as [o|]; [|done].
      by destruct (scene w !! o) as [[| |[]|]|]. }
    destruct (removal_without_sink w Hpts)
      as [Hf [(Hout & _ & Hw)|([o Hout] & _ & Hw)]]; rewrite Hw;
      (split; [exact Hpts|]); (split; [by rewrite Hf|]);
      (split; [by rewrite Hnopd|]); repeat split; try done.
    + rewrite Hout. by intros [? ?].
    + by rewrite Hout.
Qed.

(** ** Counting and undoing *)

Lemma PointCount_SinkPoints (w : World) :
  PointCount w
  = match SinkPoints w with
    | Some pts => Z.of_nat (length pts)
    | None => 0
    end.
Proof.
  unfold PointCount, GetNumberOfPointsInOutput, SinkPoints.
  destruct (GetOutputNode w) as [o|]; [|done].
  destruct (scene w !! o) as [[| fids |[pd|]|]|]; simpl; try done.
  - unfold Markups.GetNumberOfFiducials. by rewrite length_fmap.
  - unfold PolyData_GetNumberOfPoints, PointArray.GetNumberOfPoints.
    by destruct (Points pd).
Qed.

(** What [AddPoint] does to the bound sink: nothing, or it appends the
    sampled point, which the gate has let through. *)
Lemma AddPoint_points (collectPointsNode : ParameterNodePointer)
    (frames : FrameProvider) (w : World) :
  let w' := AddPoint collectPointsNode frames w in
  (SinkPoints w' = SinkPoints w ∧ SinkFiducials w' = SinkFiducials w
   ∧ node w' = node w)
  ∨ (∃ pts p,
       SinkPoints w = Some pts
       ∧ SinkPoints w' = Some (pts ++ [p])
       ∧ (last pts = None
          ∨ ∃ q, last pts = Some q
                 ∧ TooClose (ComputeMinimumDistanceFromPreviousPointMm w) p q
                   = false)).
Proof.
  destruct (AddPoint_outcome collectPointsNode frames w)
    as [[text Hw]|[(p & [fids Hsink] & _ & Hw)|(p & [opd Hsink] & _ & Hw)]];
    simpl in *; rewrite Hw.
  - by left.
  - destruct (AddPointToMarkups_outcome p w fids Hsink)
      as [(_ & ->)|(Hc & Hp & _)]; [by left|right].
    exists (fiducialPosition <$> fids), p.
    split; [by apply SinkPoints_of_fiducials|done].
  - destruct (AddPointToModel_outcome p w opd Hsink)
      as [(_ & ->)|(Hc & Hp & _)]; [by left|right].
    exists (default [] (Points (default vtkPolyData_New opd))), p.
    split; [by apply SinkPoints_of_poly_data|done].
Qed.

(** X6.  The number of points the node reports, along the requests: 0
    after [RemoveAllPoints], one less (and never below 0) after
    [RemoveLastPoint], the same or one more after [AddPoint].  This holds
    for every world, with or without a usable sink. *)
Theorem PointCount_along_requests (w : World) :
  PointCount (RemoveAllPoints w) = 0
  ∧ PointCount (RemoveLastPoint w) = Z.max 0 (PointCount w - 1)
  ∧ (∀ collectPointsNode frames,
       PointCount (AddPoint collectPointsNode frames w) = PointCount w
       ∨ PointCount (AddPoint collectPointsNode frames w) = PointCount w + 1)
  ∧ 0 ≤ PointCount w.
Proof.
  split; [|split; [|split]].
  - rewrite PointCount_SinkPoints.
    destruct (SinkPoints w) as [pts|] eqn:Hpts.
    + by destruct (RemoveAllPoints_sink w pts Hpts) as (-> & _).
    + destruct (removal_without_sink w Hpts)
        as [_ [(_ & _ & ->)|(_ & _ & ->)]];
        by change (SinkPoints (vtkErrorMacro ?t w)) with (SinkPoints w);
           rewrite Hpts.
  - rewrite !PointCount_SinkPoints.
    destruct (SinkPoints w) as [pts|] eqn:Hpts.
    + destruct (RemoveLastPoint_sink w pts Hpts) as (-> & _).
      rewrite length_take. lia.
    + destruct (removal_without_sink w Hpts)
        as [_ [(_ & -> & _)|(_ & -> & _)]];
        by change (SinkPoints (vtkErrorMacro ?t w)) with (SinkPoints w);
           rewrite Hpts.
  - intros ptr frames. rewrite !PointCount_SinkPoints.
    destruct (AddPoint_points ptr frames w)
      as [(-> & _)|(pts & p & -> & -> & _)]; [by left|right].
    rewrite length_app. simpl. lia.
  - rewrite PointCount_SinkPoints. destruct (SinkPoints w); lia.
Qed.

(** X7.  [RemoveLastPoint] undoes an append: after an append that went
    through, it gives back the points the sink held, and a point set gets
    back its fiducials with their labels.  The label counter is not given
    back: it stays where the append left it. *)
Theorem RemoveLastPoint_undoes_append (add : Point3 → World → World)
    (p : Point3) (w : World) :
  (is_Some (SinkFiducials w) ∧ add = AddPointToMarkups)
  ∨ (is_Some (SinkPolyData w) ∧ add = AddPointToModel) →
  Appends add p w →
  SinkPoints (RemoveLastPoint (add p w)) = SinkPoints w
  ∧ SinkFiducials (RemoveLastPoint (add p w)) = SinkFiducials w
  ∧ LabelCounter (node (RemoveLastPoint (add p w)))
    = LabelCounter (node (add p w)).
Proof.
  intros Hkind (pts & Hpts & Happ).
  destruct (RemoveLastPoint_sink (add p w) (pts ++ [p]) Happ)
    as (Hp & Hf & _).
  rewrite Hp, Hf, RemoveLastPoint_node, Hpts.
  assert (Htake : ∀ {A} (l : list A) (x : A),
             take (length (l ++ [x]) - 1) (l ++ [x]) = l).
  { intros A l x. rewrite length_app. simpl.
    replace (length l + 1 - 1)%nat with (length l) by lia.
    by rewrite take_app_length. }
  rewrite Htake. split; [done|]. split; [|done].
  destruct Hkind as [[[fids Hsink] ->]|[[opd Hsink] ->]].
  - destruct (AddPointToMarkups_outcome p w fids Hsink)
      as [(_ & Hw)|(_ & _ & Hfids & _)].
    + exfalso. apply (appends_changes_world AddPointToMarkups p w);
        [by exists pts|done].
    + rewrite Hfids, Hsink. simpl. by rewrite Htake.
  - assert (Hnone : SinkFiducials w = None).
    { destruct (sink_is_point_set_or_mesh w pts Hpts)
        as [[fids Hf']|[Hnone _]]; [|done].
      apply SinkFiducials_Some in Hf' as [i Hi].
      apply SinkPolyData_Some in Hsink as [j Hj].
      apply SafeDownCast_MarkupsFiducialNode_Some in Hi as [Ho Hn].
      apply SafeDownCast_ModelNode_Some in Hj as [Ho' Hn'].
      congruence. }
    destruct (AddPointToModel_outcome p w opd Hsink)
      as [(_ & Hw)|(_ & _ & Hpd & _)].
    + exfalso. apply (appends_changes_world AddPointToModel p w);
        [by exists pts|done].
    + rewrite Hnone.
      apply SinkPolyData_Some in Hpd as [j Hj].
      apply SafeDownCast_ModelNode_Some in Hj as [Ho' Hn'].
      unfold SinkFiducials, SafeDownCast_MarkupsFiducialNode.
      by rewrite Ho', Hn'.
Qed.

(** Scenario A, undone: the point P1 is appended and removed again; the
    sink holds P0 alone, and the counter has moved to 2. *)
Lemma RemoveLastPoint_undoes_append_witness :
  SinkFiducials
    (RemoveLastPoint
       (AddPointToMarkups (1, 0, 0)%float (markups_world Manual)))
  = Some [mkFiducial "P0" (0, 0, 0)%float]
  ∧ LabelCounter
      (node (RemoveLastPoint
               (AddPointToMarkups (1, 0, 0)%float (markups_world Manual))))
    = LabelCounter
        (node (AddPointToMarkups (1, 0, 0)%float (markups_world Manual))).
Proof.
  apply (RemoveLastPoint_undoes_append AddPointToMarkups (1, 0, 0)%float
           (markups_world Manual)).
  - left. split; [by eexists|reflexivity].
  - exists [(0, 0, 0)%float]. split; reflexivity.
Defined.

(** ** The labels of collected points *)



Lemma point_set_is_no_mesh (w : World) (fids : list Fiducial) :
  SinkFiducials w = Some fids → SinkPolyData w = None.
Proof.
  intros [i Hi]%SinkFiducials_Some.
  apply SafeDownCast_MarkupsFiducialNode_Some in Hi as [Ho Hn].
  unfold SinkPolyData, SafeDownCast_ModelNode. by rewrite Ho, Hn.
Qed.

(** What the removals do to the fiducials of the bound point set. *)
Lemma removal_fiducials (w : World) :
  SinkFiducials (RemoveLastPoint w)
  = (λ fids, take (length fids - 1) fids) <$> SinkFiducials w
  ∧ SinkFiducials (RemoveAllPoints w) = (λ _, []) <$> SinkFiducials w.
Proof.
  destruct (SinkPoints w) as [pts|] eqn:Hpts.
  - destruct (RemoveLastPoint_sink w pts Hpts) as (_ & -> & _).
    by destruct (RemoveAllPoints_sink w pts Hpts) as (_ & -> & _).
  - destruct (removal_without_sink w Hpts)
      as [Hf [(_ & -> & ->)|(_ & -> & ->)]];
      by change (SinkFiducials (vtkErrorMacro ?t w)) with (SinkFiducials w);
         rewrite Hf.
Qed.

(** What [AddPoint] does to the fiducials of the bound point set:
    nothing, or it appends the sampled point, which the gate has let
    through, under the label of the session. *)
Lemma AddPoint_fiducials (collectPointsNode : ParameterNodePointer)
    (frames : FrameProvider) (w : World) (fids : list Fiducial) :
  SinkFiducials w = Some fids →
  let w' := AddPoint collectPointsNode frames w in
  (SinkFiducials w' = Some fids ∧ node w' = node w)
  ∨ (∃ p,
       SinkFiducials w'
       = Some (fids ++ [mkFiducial
                          (c_str
                             (String.append (LabelBase (node w))
                                (stream_int (LabelCounter (node w))))) p])
       ∧ node w'
         = with_counter (int_wrap (LabelCounter (node w) + 1)) (node w)
       ∧ (last (fiducialPosition <$> fids) = None
          ∨ ∃ q, last (fiducialPosition <$> fids) = Some q
                 ∧ TooClose (ComputeMinimumDistanceFromPreviousPointMm w) p q
                   = false)).
Proof.
  intros Hfids.
  destruct (AddPoint_outcome collectPointsNode frames w)
    as [[text Hw]|[(p & _ & _ & Hw)|(p & [opd Hsink] & _ & Hw)]];
    simpl in *; rewrite Hw.
  - by left.
  - destruct (AddPointToMarkups_outcome p w fids Hfids)
      as [(_ & ->)|(Hc & _ & Hf & Hn & _)]; [by left|right].
    by exists p.
  - apply point_set_is_no_mesh in Hfids. congruence.
Qed.

(** Without a bound point set [AddPoint] does not bind one. *)
Lemma AddPoint_no_fiducials (collectPointsNode : ParameterNodePointer)
    (frames : FrameProvider) (w : World) :
  SinkFiducials w = None →
  SinkFiducials (AddPoint collectPointsNode frames w) = None.
Proof.
  intros Hnone.
  destruct (AddPoint_outcome collectPointsNode frames w)
    as [[text Hw]|[(p & [fids Hsink] & _)|(p & [opd Hsink] & _ & Hw)]];
    simpl in *; [by rewrite Hw|congruence|].
  rewrite Hw.
  destruct (AddPointToModel_outcome p w opd Hsink)
    as [(_ & ->)|(_ & _ & Hpd & _)]; [done|].
  destruct (SinkFiducials (AddPointToModel p w)) as [fids|] eqn:Hf; [|done].
  apply point_set_is_no_mesh in Hf. congruence.
Qed.






(** ** The spacing of automatically collected points *)

Lemma WellSpaced_take (m : float) (pts : list Point3) (n : nat) :
  WellSpaced m pts → WellSpaced m (take n pts).
Proof.
  intros Hs i p q Hp Hq.
  apply lookup_take_Some in Hp as [Hp _].
  apply lookup_take_Some in Hq as [Hq _].
  by apply (Hs i).
Qed.

Lemma WellSpaced_snoc (m : float) (pts : list Point3) (p : Point3) :
  WellSpaced m pts →
  last pts = None ∨ (∃ q, last pts = Some q ∧ TooClose m p q = false) →
  WellSpaced m (pts ++ [p]).
Proof.
  intros Hs Hgate i p0 q0 Hp Hq.
  destruct (decide (S i < length pts)%nat) as [Hlt|Hge].
  - rewrite lookup_app_l in Hp by lia. rewrite lookup_app_l in Hq by lia.
    by apply (Hs i).
  - assert (Hi : S i = length pts).
    { apply lookup_lt_Some in Hq. rewrite length_app in Hq. simpl in Hq. lia. }
    rewrite lookup_app_l in Hp by lia.
    rewrite Hi, list_lookup_middle in Hq by done.
    injection Hq as <-.
    assert (Hlast : last pts = Some p0).
    { rewrite last_lookup, <- Hi. done. }
    destruct Hgate as [Hnone|(q & Hq & Hd)].
    + congruence.
    + by assert (q = p0) as <- by congruence.
Qed.

Lemma removal_points (w : World) :
  SinkPoints (RemoveLastPoint w)
  = (λ pts, take (length pts - 1) pts) <$> SinkPoints w
  ∧ SinkPoints (RemoveAllPoints w) = (λ _, []) <$> SinkPoints w.
Proof.
  destruct (SinkPoints w) as [pts|] eqn:Hpts.
  - destruct (RemoveLastPoint_sink w pts Hpts) as (-> & _).
    by destruct (RemoveAllPoints_sink w pts Hpts) as (-> & _).
  - by destruct (removal_without_sink w Hpts)
      as [_ [(_ & -> & ->)|(_ & -> & ->)]].
Qed.

Lemma AddPoint_spacing (collectPointsNode : ParameterNodePointer)
    (frames : FrameProvider) (w : World) :
  SpacedWhileAutomatic w →
  SpacedWhileAutomatic (AddPoint collectPointsNode frames w).
Proof.
  intros Hs Hmode fids' Hfids'.
  assert (Hnode : CollectMode (node (AddPoint collectPointsNode frames w))
                  = CollectMode (node w)
                  ∧ MinimumDistanceMm
                      (node (AddPoint collectPointsNode frames w))
                    = MinimumDistanceMm (node w)).
  { by destruct (AddPoint_node collectPointsNode frames w) as [->| ->]. }
  destruct Hnode as [Hm Hd]. unfold GetCollectMode in *.
  rewrite Hm in Hmode. rewrite Hd.
  destruct (SinkFiducials w) as [fids|] eqn:Hfids.
  - destruct (AddPoint_fiducials collectPointsNode frames w fids Hfids)
      as [[Hf _]|(p & Hf & _ & Hgate)]; simpl in *.
    + assert (fids' = fids) as -> by congruence. by apply Hs.
    + assert (fids' = fids ++ [mkFiducial
                 (c_str
                    (String.append (LabelBase (node w))
                       (stream_int (LabelCounter (node w))))) p]) as ->
        by congruence.
      rewrite fmap_app. simpl.
      unfold ComputeMinimumDistanceFromPreviousPointMm, GetCollectMode
        in Hgate.
      rewrite bool_decide_true in Hgate by done.
      apply WellSpaced_snoc; [by apply Hs|done].
  - rewrite AddPoint_no_fiducials in Hfids' by done. done.
Qed.

Lemma controller_step_spacing (w w' : World) :
  controller_step w w' → SpacedWhileAutomatic w → SpacedWhileAutomatic w'.
Proof.
  intros [ptr frames| | |caller event frames] Hs.
  - by apply AddPoint_spacing.
  - intros Hmode fids' Hfids'. unfold GetCollectMode in *.
    rewrite RemoveLastPoint_node in *.
    rewrite (proj1 (removal_fiducials w)) in Hfids'.
    destruct (SinkFiducials w) as [fids|] eqn:Hfids; [|done].
    injection Hfids' as <-. rewrite fmap_take.
    apply WellSpaced_take. by apply Hs.
  - intros Hmode fids' Hfids'.
    rewrite (proj2 (removal_fiducials w)) in Hfids'.
    destruct (SinkFiducials w) as [fids|] eqn:Hfids; [|done].
    injection Hfids' as <-. by intros i p q Hp.
  - destruct (ProcessMRMLNodesEvents_outcome caller event frames w)
      as [->|[[text ->]|[(_ & _ & ->)|(_ & _ & _ & ->)]]].
    + done.
    + done.
    + intros Hmode. unfold GetCollectMode in Hmode.
      by rewrite fallback_to_manual_node in Hmode.
    + by apply AddPoint_spacing.
Qed.

(** X9.  In automatic mode the gate keeps the collected points of a point
    set apart.  Say that a point is too close to the one before it when
    [MinimumDistanceMm > 0.0] and the distance between the two, computed
    in [double] arithmetic as the gate computes it, is less than
    [MinimumDistanceMm].  If, whenever the session is in automatic mode,
    no point of the bound point set is too close to the one before it,
    then this is so again after every sequence of requests and
    notifications: a point sampled too close to the last stored point is
    not stored, and removals and the fallback to Manual do not bring
    points closer. *)
Theorem automatic_points_stay_spaced (w w' : World) :
  SpacedWhileAutomatic w → rtc controller_step w w' →
  SpacedWhileAutomatic w'.
Proof.
  intros Hs Hsteps. induction Hsteps as [|w w1 w' Hstep _ IH]; [done|].
  apply IH. by apply (controller_step_spacing w).
Qed.

(** The stylus at (20, 0, 0), then twice at the origin, in automatic mode
    with the minimum distance 10 and P0 at the origin. *)
Lemma automatic_points_stay_spaced_witness :
  SpacedWhileAutomatic
    (AddPoint ParameterNode identity_frames
       (ProcessMRMLNodesEvents ParameterNode InputDataModifiedEvent
          identity_frames
          (AddPoint ParameterNode stylus_frames (markups_world Automatic)))).
Proof.
  apply (automatic_points_stay_spaced (markups_world Automatic)).
  - intros _ fids [= <-] i p q Hp Hq. destruct i; done.
  - eapply rtc_l; [apply request_AddPoint|].
    eapply rtc_l; [apply notify_ProcessMRMLNodesEvents|].
    apply rtc_once. apply request_AddPoint.
Defined.

(** ** Binding the references *)

Lemma same_node_id_spec (a b : option string) :
  same_node_id a b = true ↔ is_Some a ∧ a = b.
Proof.
  rewrite same_node_id_true. split.
  - intros (id & -> & ->). split; [by eexists|done].
  - intros [[id ->] <-]. by exists id.
Qed.

Lemma SetAndObserveSamplingTransformNodeID_cases (nodeID : option string)
    (w : World) :
  let sampling := GetNodeReferenceID SAMPLING_TRANSFORM_REFERENCE_ROLE w in
  let anchor := GetNodeReferenceID ANCHOR_TRANSFORM_REFERENCE_ROLE w in
  (is_Some nodeID ∧ nodeID = sampling
   ∧ SetAndObserveSamplingTransformNodeID nodeID w = w)
  ∨ (is_Some nodeID ∧ nodeID ≠ sampling ∧ nodeID = anchor
     ∧ SetAndObserveSamplingTransformNodeID nodeID w
       = vtkErrorMacro "Anchor and sampling transforms cannot be the same." w)
  ∨ (¬ (is_Some nodeID ∧ nodeID = sampling)
     ∧ ¬ (is_Some nodeID ∧ nodeID = anchor)
     ∧ SetAndObserveSamplingTransformNodeID nodeID w
       = InvokeCustomModifiedEvent InputDataModifiedEvent
           (SetAndObserveNodeReferenceID SAMPLING_TRANSFORM_REFERENCE_ROLE
              nodeID w)).
Proof.
  intros sampling anchor. unfold SetAndObserveSamplingTransformNodeID.
  fold sampling anchor.
  destruct (same_node_id nodeID sampling) eqn:Hcur.
  { apply same_node_id_spec in Hcur as [Hsome Hcur]. by left. }
  assert (Hncur : ¬ (is_Some nodeID ∧ nodeID = sampling)).
  { intros H%same_node_id_spec. congruence. }
  destruct (same_node_id nodeID anchor) eqn:Hanc.
  { apply same_node_id_spec in Hanc as [Hsome Hanc].
    right. left. repeat split; try done. intros H. by apply Hncur. }
  right. right. repeat split; try done.
  intros H%same_node_id_spec. congruence.
Qed.

Lemma SetAndObserveAnchorTransformNodeID_cases (nodeID : option string)
    (w : World) :
  let sampling := GetNodeReferenceID SAMPLING_TRANSFORM_REFERENCE_ROLE w in
  let anchor := GetNodeReferenceID ANCHOR_TRANSFORM_REFERENCE_ROLE w in
  (is_Some nodeID ∧ nodeID = anchor
   ∧ SetAndObserveAnchorTransformNodeID nodeID w = w)
  ∨ (is_Some nodeID ∧ nodeID ≠ anchor ∧ nodeID = sampling
     ∧ SetAndObserveAnchorTransformNodeID nodeID w
       = vtkErrorMacro "Anchor and sampling transforms cannot be the same." w)
  ∨ (¬ (is_Some nodeID ∧ nodeID = anchor)
     ∧ ¬ (is_Some nodeID ∧ nodeID = sampling)
     ∧ SetAndObserveAnchorTransformNodeID nodeID w
       = SetAndObserveNodeReferenceID ANCHOR_TRANSFORM_REFERENCE_ROLE
           nodeID w).
Proof.
  intros sampling anchor. unfold SetAndObserveAnchorTransformNodeID.
  fold sampling anchor.
  destruct (same_node_id nodeID anchor) eqn:Hcur.
  { apply same_node_id_spec in Hcur as [Hsome Hcur]. by left. }
  assert (Hncur : ¬ (is_Some nodeID ∧ nodeID = anchor)).
  { intros H%same_node_id_spec. congruence. }
  destruct (same_node_id nodeID sampling) eqn:Hs.
  { apply same_node_id_spec in Hs as [Hsome Hs].
    right. left. repeat split; try done. intros H. by apply Hncur. }
  right. right. repeat split; try done.
  intros H%same_node_id_spec. congruence.
Qed.

(** X10.  What [SetAndObserveSamplingTransformNodeID] leaves behind.
    Unless the requested ID is the one the anchor reference holds, the
    sampling reference holds the requested ID afterwards (the null pointer
    clears it); the anchor and output references, the scene and the rest
    of the configuration are never touched.  [InputDataModifiedEvent] is
    invoked exactly when the reference is assigned, also when the null
    pointer clears a reference that was already clear, and not when the
    requested ID is already bound or is refused.  Binding an ID that is
    not refused a second time changes nothing. *)
Theorem SetAndObserveSamplingTransformNodeID_effect (nodeID : option string)
    (w : World) :
  let w' := SetAndObserveSamplingTransformNodeID nodeID w in
  let sampling := GetNodeReferenceID SAMPLING_TRANSFORM_REFERENCE_ROLE in
  let anchor := GetNodeReferenceID ANCHOR_TRANSFORM_REFERENCE_ROLE in
  let output := GetNodeReferenceID OUTPUT_REFERENCE_ROLE in
  (¬ (is_Some nodeID ∧ nodeID = anchor w) → sampling w' = nodeID)
  ∧ anchor w' = anchor w ∧ output w' = output w ∧ scene w' = scene w
  ∧ LabelBase (node w') = LabelBase (node w)
  ∧ LabelCounter (node w') = LabelCounter (node w)
  ∧ MinimumDistanceMm (node w') = MinimumDistanceMm (node w)
  ∧ CollectMode (node w') = CollectMode (node w)
  ∧ (is_Some nodeID ∧ (nodeID = sampling w ∨ nodeID = anchor w) →
     invoked w' = invoked w)
  ∧ (¬ (is_Some nodeID ∧ (nodeID = sampling w ∨ nodeID = anchor w)) →
     invoked w' = invoked w ++ [InputDataModifiedEvent]
     ∧ messages w' = messages w)
  ∧ (is_Some nodeID → nodeID ≠ anchor w →
     SetAndObserveSamplingTransformNodeID nodeID w' = w').
Proof.
  intros w' sampling anchor output. subst w' sampling anchor output.
  destruct (SetAndObserveSamplingTransformNodeID_cases nodeID w)
    as [(Hsome & Hcur & Hw)|[(Hsome & Hncur & Hanc & Hw)|(Hncur & Hnanc & Hw)]];
    rewrite !Hw.
  - split_and!; try done; intros Hno; destruct Hno; by auto.
  - split_and!; try done; intros Hno; destruct Hno; by auto.
  - change (GetNodeReferenceID ?r (InvokeCustomModifiedEvent ?e ?v))
      with (GetNodeReferenceID r v).
    rewrite !reference_after_set.
    rewrite decide_True by done. rewrite !decide_False by done.
    split_and!; try done.
    + intros [Hsome [H|H]]; [destruct Hncur|destruct Hnanc]; done.
    + intros Hsome Hne.
      destruct (SetAndObserveSamplingTransformNodeID_cases nodeID
                  (InvokeCustomModifiedEvent InputDataModifiedEvent
                     (SetAndObserveNodeReferenceID
                        SAMPLING_TRANSFORM_REFERENCE_ROLE nodeID w)))
        as [(_ & _ & Hw')|[(_ & Hn & _)|(Hn & _)]]; [done|exfalso..].
      * apply Hn.
        change (GetNodeReferenceID ?r (InvokeCustomModifiedEvent ?e ?v))
          with (GetNodeReferenceID r v).
        rewrite reference_after_set. by rewrite decide_True.
      * apply Hn. split; [done|].
        change (GetNodeReferenceID ?r (InvokeCustomModifiedEvent ?e ?v))
          with (GetNodeReferenceID r v).
        rewrite reference_after_set. by rewrite decide_True.
Qed.

(** X11.  What [SetAndObserveAnchorTransformNodeID] leaves behind.
    Unless the requested ID is the one the sampling reference holds, the
    anchor reference holds the requested ID afterwards, and the null
    pointer always clears it.  The sampling and output references, the
    scene and the rest of the configuration are never touched, and no
    event is invoked in any case.  A message is added only when the
    request is refused. *)
Theorem SetAndObserveAnchorTransformNodeID_effect (nodeID : option string)
    (w : World) :
  let w' := SetAndObserveAnchorTransformNodeID nodeID w in
  let sampling := GetNodeReferenceID SAMPLING_TRANSFORM_REFERENCE_ROLE in
  let anchor := GetNodeReferenceID ANCHOR_TRANSFORM_REFERENCE_ROLE in
  let output := GetNodeReferenceID OUTPUT_REFERENCE_ROLE in
  (¬ (is_Some nodeID ∧ nodeID = sampling w) → anchor w' = nodeID)
  ∧ sampling w' = sampling w ∧ output w' = output w ∧ scene w' = scene w
  ∧ LabelBase (node w') = LabelBase (node w)
  ∧ LabelCounter (node w') = LabelCounter (node w)
  ∧ MinimumDistanceMm (node w') = MinimumDistanceMm (node w)
  ∧ CollectMode (node w') = CollectMode (node w)
  ∧ invoked w' = invoked w
  ∧ (¬ (is_Some nodeID ∧ nodeID = sampling w ∧ nodeID ≠ anchor w) →
     messages w' = messages w).
Proof.
  intros w' sampling anchor output. subst w' sampling anchor output.
  destruct (SetAndObserveAnchorTransformNodeID_cases nodeID w)
    as [(Hsome & Hcur & Hw)|[(Hsome & Hncur & Hs & Hw)|(Hncur & Hns & Hw)]];
    rewrite !Hw.
  - split_and!; try done; intros Hno; destruct Hno; by auto.
  - split_and!; try done; intros Hno; destruct Hno; by auto.
  - rewrite !reference_after_set.
    rewrite decide_True by done. rewrite !decide_False by done.
    by split_and!.
Qed.

Lemma SetOutputNodeID_cases (nodeID : option string) (w : World) :
  (is_Some nodeID ∧ nodeID = GetNodeReferenceID OUTPUT_REFERENCE_ROLE w
   ∧ SetOutputNodeID nodeID w = w)
  ∨ (¬ (is_Some nodeID ∧ nodeID = GetNodeReferenceID OUTPUT_REFERENCE_ROLE w)
     ∧ SetOutputNodeID nodeID w
       = SetAndObserveNodeReferenceID OUTPUT_REFERENCE_ROLE nodeID w).
Proof.
  unfold SetOutputNodeID.
  destruct (same_node_id nodeID (GetNodeReferenceID OUTPUT_REFERENCE_ROLE w))
    eqn:Hcur.
  - apply same_node_id_spec in Hcur as [Hsome Hcur]. by left.
  - right. split; [|done]. intros H%same_node_id_spec. congruence.
Qed.

(** X12.  [SetOutputNodeID] never refuses: afterwards the output
    reference holds the requested ID, whatever it is (the ID of the
    sampling or of the anchor frame too), and the null pointer clears it.
    The frame references, the scene and the rest of the configuration are
    untouched, nothing is reported and no event is invoked.  Setting the
    same output twice is setting it once. *)
Theorem SetOutputNodeID_effect (nodeID : option string) (w : World) :
  let w' := SetOutputNodeID nodeID w in
  GetNodeReferenceID OUTPUT_REFERENCE_ROLE w' = nodeID
  ∧ GetNodeReferenceID SAMPLING_TRANSFORM_REFERENCE_ROLE w'
    = GetNodeReferenceID SAMPLING_TRANSFORM_REFERENCE_ROLE w
  ∧ GetNodeReferenceID ANCHOR_TRANSFORM_REFERENCE_ROLE w'
    = GetNodeReferenceID ANCHOR_TRANSFORM_REFERENCE_ROLE w
  ∧ scene w' = scene w ∧ messages w' = messages w ∧ invoked w' = invoked w
  ∧ LabelBase (node w') = LabelBase (node w)
  ∧ LabelCounter (node w') = LabelCounter (node w)
  ∧ MinimumDistanceMm (node w') = MinimumDistanceMm (node w)
  ∧ CollectMode (node w') = CollectMode (node w)
  ∧ SetOutputNodeID nodeID w' = w'.
Proof.
  intros w'. subst w'.
  destruct (SetOutputNodeID_cases nodeID w) as [(Hsome & Hcur & Hw)|[Hn Hw]];
    rewrite !Hw.
  - by split_and!.
  - rewrite !reference_after_set.
    rewrite decide_True by done. rewrite !decide_False by done.
    split_and!; try done.
    destruct (SetOutputNodeID_cases nodeID
                (SetAndObserveNodeReferenceID OUTPUT_REFERENCE_ROLE nodeID w))
      as [(_ & _ & Hw')|[_ Hw']]; rewrite Hw'; [done|].
    destruct nodeID as [id|];
      unfold SetAndObserveNodeReferenceID, set_node; simpl.
    + by rewrite insert_insert_eq.
    + by rewrite delete_delete_eq.
Qed.

(** ** Notifications *)

Lemma linear_transform_reference (role : string) (w : World) (id : string) :
  SafeDownCast_LinearTransformNode (GetNodeReference role w) w = Some id →
  GetNodeReferenceID role w = Some id
  ∧ scene w !! id = Some LinearTransformNode.
Proof.
  unfold SafeDownCast_LinearTransformNode.
  destruct (GetNodeReference role w) as [i|] eqn:Href; [|done].
  destruct (scene w !! i) as [[]|] eqn:Hnode; try done.
  intros [= <-]. split; [|done].
  by apply GetNodeReference_Some in Href as [-> _].
Qed.

(** X13.  [vtkMRMLCollectPointsNode::ProcessMRMLEvents] passes on the
    modification of the sampling transform node and nothing else: it
    invokes [InputDataModifiedEvent] when the caller is the bound
    sampling transform node, and leaves the world as it is for every other
    caller; a caller that is the anchor transform node is such a one when
    the two references differ.  It never touches the session, the scene
    or the messages. *)
Theorem ProcessMRMLEvents_forwards_sampling_frame (caller : option string)
    (w : World) :
  let w' := ProcessMRMLEvents caller w in
  node w' = node w ∧ scene w' = scene w ∧ messages w' = messages w
  ∧ (is_Some caller → caller = GetSamplingTransformNode w →
     invoked w' = invoked w ++ [InputDataModifiedEvent])
  ∧ (caller = None ∨ caller ≠ GetSamplingTransformNode w → w' = w)
  ∧ (NoFrameConflict w → caller = GetAnchorTransformNode w → w' = w).
Proof.
  intros w'. subst w'. unfold ProcessMRMLEvents.
  destruct caller as [c|]; [|by split_and!].
  destruct (GetSamplingTransformNode w) as [s|] eqn:Hs.
  - case_bool_decide as Hc.
    + subst c. split_and!; try done.
      * intros [|]; congruence.
      * intros Hinv Ha. exfalso.
        apply linear_transform_reference in Hs as [Hs _].
        symmetry in Ha.
        apply linear_transform_reference in Ha as [Ha _].
        by apply (Hinv s).
    + split_and!; try done. intros _ [= ->]. done.
  - by split_and!.
Qed.

(** X14.  The fallback is taken once.  After a notification has found an
    automatic session without a sink or without a sampling frame and has
    set it to Manual, every further notification to the session leaves
    the world as it is: the warning is not repeated, until the owner sets
    the mode to Automatic again. *)
Theorem fallback_warns_once (frames frames' : FrameProvider) (event : Event)
    (w : World) :
  GetCollectMode w = Automatic →
  GetOutputNode w = None ∨ GetSamplingTransformNode w = None →
  let w1 :=
    ProcessMRMLNodesEvents ParameterNode InputDataModifiedEvent frames w in
  messages w1
  = messages w
    ++ [WarningMessage
          "Collect fiducials node is not fully set up. Setting to manual collection."]
  ∧ ProcessMRMLNodesEvents ParameterNode event frames' w1 = w1.
Proof.
  intros Hmode Hunbound w1.
  assert (Hw1 : w1 = fallback_to_manual w).
  { subst w1. unfold ProcessMRMLNodesEvents.
    rewrite bool_decide_true by done.
    destruct Hunbound as [-> | ->]; [done|].
    by destruct (GetOutputNode w). }
  rewrite Hw1. split; [apply fallback_to_manual_frame|].
  unfold ProcessMRMLNodesEvents. destruct event; [done|].
  rewrite bool_decide_false; [done|].
  unfold GetCollectMode. by rewrite fallback_to_manual_node.
Qed.

Lemma fallback_warns_once_witness :
  ProcessMRMLNodesEvents ParameterNode InputDataModifiedEvent stylus_frames
    (ProcessMRMLNodesEvents ParameterNode InputDataModifiedEvent
       identity_frames (SetCollectMode Automatic new_world))
  = ProcessMRMLNodesEvents ParameterNode InputDataModifiedEvent
      identity_frames (SetCollectMode Automatic new_world).
Proof.
  exact (proj2
    (fallback_warns_once identity_frames stylus_frames InputDataModifiedEvent
       (SetCollectMode Automatic new_world) eq_refl (or_introl eq_refl))).
Defined.

(** ** What the controller leaves alone *)



















(** ** A request from end to end *)

(** X16.  A request on a session with a sampling frame and a point-set
    sink samples the point [ComputePointCoordinates] computes and then
    does one of two things.  When the point set holds a point, the
    minimum distance in force is positive and the distance of the
    sampled point from the last stored point, computed in [double]
    arithmetic, is less than it, the request leaves the world exactly as
    it was: no point, no message, no event, no change of the session.
    In every other case (also when the minimum distance or the computed
    distance is NaN) the sampled point becomes the last point of the
    point set under the label of the session, the fiducials before it
    stay, nothing is reported and [ModifiedEvent] is invoked once. *)
Theorem AddPoint_samples_then_gates (frames : FrameProvider) (w : World)
    (fids : list Fiducial) :
  is_Some (GetSamplingTransformNode w) →
  SinkFiducials w = Some fids →
  let m := ComputeMinimumDistanceFromPreviousPointMm w in
  let label :=
    c_str
      (String.append (LabelBase (node w))
         (stream_int (LabelCounter (node w)))) in
  ∃ p,
    ComputePointCoordinates ParameterNode frames (0, 0, 0)%float w
    = (p, true, w)
    ∧ (((∃ q, last (fiducialPosition <$> fids) = Some q
              ∧ PrimFloat.ltb 0 m = true
              ∧ PrimFloat.ltb (ComputedDistanceMm p q) m = true)
        ∧ AddPoint ParameterNode frames w = w)
       ∨ ((last (fiducialPosition <$> fids) = None
           ∨ PrimFloat.ltb 0 m = false
           ∨ ∃ q, last (fiducialPosition <$> fids) = Some q
                  ∧ PrimFloat.ltb (ComputedDistanceMm p q) m = false)
          ∧ SinkFiducials (AddPoint ParameterNode frames w)
            = Some (fids ++ [mkFiducial label p])
          ∧ messages (AddPoint ParameterNode frames w) = messages w
          ∧ invoked (AddPoint ParameterNode frames w)
            = invoked w ++ [ModifiedEvent])).
Proof.
  intros Hs Hsink m label.
  pose proof (SinkPoints_of_fiducials w fids Hsink) as Hpts.
  destruct (AddPoint_bound frames w _ Hs Hpts)
    as (p & Hp & [[_ ->]|[[opd Hpd] _]]);
    [|apply point_set_is_no_mesh in Hsink; congruence].
  exists p. split; [done|].
  destruct (AddPointToMarkups_outcome p w fids Hsink)
    as [((q & Hq & [Hm Hd]%TooClose_true) & Hw)
       |(Hc & _ & Hf & _ & Hmsg & Hi)].
  - left. split; [|done]. by exists q.
  - right. split; [|done].
    destruct Hc as [Hnone|(q & Hq & [Hm|Hd]%TooClose_false)];
      [by left|by right; left|right; right; by exists q].
Qed.

(** Scenario C through a request: the stylus at (20, 0, 0), the point set
    holding P0 at the origin, automatic mode with the minimum distance
    10; the point is stored as P1. *)
Lemma AddPoint_samples_then_gates_witness :
  ∃ p,
    ComputePointCoordinates ParameterNode stylus_frames (0, 0, 0)%float
      (markups_world Automatic)
    = (p, true, markups_world Automatic)
    ∧ (((∃ q, last [(0, 0, 0)%float] = Some q
              ∧ PrimFloat.ltb 0 10 = true
              ∧ PrimFloat.ltb (ComputedDistanceMm p q) 10 = true)
        ∧ AddPoint ParameterNode stylus_frames (markups_world Automatic)
          = markups_world Automatic)
       ∨ ((last [(0, 0, 0)%float] = None
           ∨ PrimFloat.ltb 0 10 = false
           ∨ ∃ q, last [(0, 0, 0)%float] = Some q
                  ∧ PrimFloat.ltb (ComputedDistanceMm p q) 10 = false)
          ∧ SinkFiducials
              (AddPoint ParameterNode stylus_frames (markups_world Automatic))
            = Some ([mkFiducial "P0" (0, 0, 0)%float]
                    ++ [mkFiducial "P1" p])
          ∧ messages
              (AddPoint ParameterNode stylus_frames (markups_world Automatic))
            = []
          ∧ invoked
              (AddPoint ParameterNode stylus_frames (markups_world Automatic))
            = [] ++ [ModifiedEvent])).
Proof.
  apply (AddPoint_samples_then_gates stylus_frames
           (markups_world Automatic) [mkFiducial "P0" (0, 0, 0)%float]).
  - by eexists.
  - reflexivity.
Defined.

(** ** The triangle strips of a mesh sink *)

(** X17.  The triangle strips of a mesh sink are never rebuilt.
    [UpdateCellsForPolyData] sets the vertex, line and polygon cells and
    leaves the triangle strips as they are, so an append and a removal
    of the last point leave a mesh sink with the strips it had; only
    [RemoveAllPoints], which installs a new geometry, drops them.  On
    the mesh of three points with one strip over them, removing the last
    point leaves two points and three cells: two vertex cells and the
    strip, which still names the point that is gone. *)
Theorem triangle_strips_survive :
  (∀ pd, Strips (UpdateCellsForPolyData pd) = Strips pd)
  ∧ (∀ p w pd, SinkPolyData w = Some (Some pd) →
       ∃ pd', SinkPolyData (AddPointToModel p w) = Some (Some pd')
              ∧ Strips pd' = Strips pd)
  ∧ (∀ w pd, SinkPolyData w = Some (Some pd) →
       ∃ pd', SinkPolyData (RemoveLastPoint w) = Some (Some pd')
              ∧ Strips pd' = Strips pd)
  ∧ (∀ w opd, SinkPolyData w = Some opd →
       SinkPolyData (RemoveAllPoints w) = Some (Some vtkPolyData_New))
  ∧ SinkPolyData (RemoveLastPoint (mesh_world Manual (Some strip_mesh)))
    = Some (Some {| Points := Some [(0, 0, 0)%float; (1, 0, 0)%float];
                    Verts := Some [[0]; [1]];
                    Lines := None; Polys := None;
                    Strips := Some [[0; 1; 2]] |})
  ∧ PointCount (RemoveLastPoint (mesh_world Manual (Some strip_mesh))) = 2
  ∧ PolyData_GetNumberOfCells
      {| Points := Some [(0, 0, 0)%float; (1, 0, 0)%float];
         Verts := Some [[0]; [1]];
         Lines := None; Polys := None;
         Strips := Some [[0; 1; 2]] |} = 3.
Proof.
  split; [apply UpdateCellsForPolyData_strips|].
  split; [|split; [|split; [|by repeat split]]].
  - intros p w pd Hsink.
    destruct (AddPointToModel_outcome p w (Some pd) Hsink)
      as [(_ & ->)|(_ & _ & -> & _)]; eexists; by split.
  - intros w pd Hsink.
    pose proof Hsink as [id Hid]%SinkPolyData_Some.
    destruct (SafeDownCast_ModelNode_Some _ _ _ _ Hid) as [Hout _].
    rewrite (RemoveLastPoint_mesh w id (Some pd) Hid).
    eexists. split; [by apply sink_after_store_poly_data|].
    by case_bool_decide.
  - intros w opd Hsink.
    pose proof Hsink as [id Hid]%SinkPolyData_Some.
    destruct (SafeDownCast_ModelNode_Some _ _ _ _ Hid) as [Hout _].
    rewrite (RemoveAllPoints_mesh w id opd Hid).
    by apply sink_after_store_poly_data.
Qed.
